(** * Cross-chain USDC/USDT arbitrage engine

    A shallow embedding of [src/index.ts] and [src/config.ts]: the
    sqrt-price converter, the fee model, the direction simulator, the
    opportunity evaluator, the mock and live execution handlers with
    their retry wrapper, and the four-stage execution pipeline.

    JavaScript [number]s are IEEE-754 binary64 values and are modelled by
    Rocq's primitive [float]s, whose operations are the same binary64
    operations with round-to-nearest-even.  [bigint]s are modelled by [Z].
    Code that can throw returns in [Exc]; code that logs, sleeps or calls
    collaborators runs in the trace monad [M]. *)

From Stdlib Require Import ZArith List String Ascii Bool Lia DecimalString.
From Stdlib Require Import Floats.
From Stdlib Require Import Reals Lra.
Import ListNotations.

Set Warnings "-inexact-float".

Open Scope string_scope.
Open Scope list_scope.
Open Scope Z_scope.

(** ** Exceptions *)

Inductive JsError : Type :=
| RangeError (msg : string)
| SyntaxError (msg : string)
| InvalidDecimalNumberError (value : string)
| Error (msg : string).

Definition Exc (A : Type) : Type := (JsError + A)%type.

Definition exc_bind {A B : Type} (c : Exc A) (k : A -> Exc B) : Exc B :=
  match c with
  | inl e => inl e
  | inr a => k a
  end.

Notation "'try' x <- c ; k" := (exc_bind c (fun x => k))
  (at level 10, x name, c at level 100, k at level 200).

(** ** The JavaScript runtime: strings, numbers, bigints *)

Module JS.

(** *** Strings *)

Definition lower_ascii (c : ascii) : ascii :=
  let n := nat_of_ascii c in
  if (Nat.leb 65 n && Nat.leb n 90)%bool then ascii_of_nat (n + 32) else c.

(** [String.prototype.toLowerCase], on the ASCII strings the program
    handles (hexadecimal addresses). *)
Fixpoint toLowerCase (s : string) : string :=
  match s with
  | EmptyString => EmptyString
  | String c s' => String (lower_ascii c) (toLowerCase s')
  end.

Definition zeros (n : nat) : string := string_of_list_ascii (repeat "0"%char n).

Definition padStart0 (n : nat) (s : string) : string :=
  (zeros (n - String.length s) ++ s)%string.

Definition padEnd0 (n : nat) (s : string) : string :=
  (s ++ zeros (n - String.length s))%string.

(** [s.slice(a)] and [s.slice(a, b)] for non-negative bounds. *)
Definition slice_from (a : nat) (s : string) : string :=
  substring a (String.length s - a) s.

Definition slice (a b : nat) (s : string) : string :=
  substring a (b - a) s.

Definition startsWith_minus (s : string) : bool :=
  match s with
  | String "-"%char _ => true
  | _ => false
  end.

Definition is_digit (c : ascii) : bool :=
  let n := nat_of_ascii c in (Nat.leb 48 n && Nat.leb n 57)%bool.

Fixpoint all_digits (s : string) : bool :=
  match s with
  | EmptyString => true
  | String c s' => (is_digit c && all_digits s')%bool
  end.

(** [s.replace(/(0+)$/, '')]: drop the trailing zeros. *)
Fixpoint trim_trailing_zeros (s : string) : string :=
  match s with
  | EmptyString => EmptyString
  | String c s' =>
      match trim_trailing_zeros s' with
      | EmptyString => if Ascii.eqb c "0" then EmptyString else String c EmptyString
      | t => String c t
      end
  end.

(** [s.split('.')], read as the destructuring [[integer, fraction]]: the
    part before the first dot, and what follows it when there is one. *)
Fixpoint split_dot (s : string) : string * option string :=
  match s with
  | EmptyString => (EmptyString, None)
  | String c s' =>
      if Ascii.eqb c "." then (EmptyString, Some s')
      else let '(i, f) := split_dot s' in (String c i, f)
  end.

(** *** Bigints *)

Definition digit_value (c : ascii) : Z := Z.of_nat (nat_of_ascii c) - 48.

Fixpoint digits_value (acc : Z) (s : string) : Z :=
  match s with
  | EmptyString => acc
  | String c s' => digits_value (10 * acc + digit_value c) s'
  end.

(** [BigInt(s)] for a decimal string; the empty string is [0n]. *)
Definition BigInt_of_string (s : string) : Exc Z :=
  let '(neg, body) :=
    if startsWith_minus s then (true, slice_from 1 s) else (false, s) in
  if all_digits body && negb (neg && (String.length body =? 0)%nat) then
    inr (if neg then - digits_value 0 body else digits_value 0 body)
  else inl (SyntaxError ("Cannot convert " ++ s ++ " to a BigInt")%string).

(** [z.toString()] and the template literal [`${z}`]. *)
Definition BigInt_toString (z : Z) : string := NilZero.string_of_int (Z.to_int z).

(** [a ** b] on bigints throws for a negative exponent. *)
Definition BigInt_pow (a b : Z) : Exc Z :=
  if b <? 0 then inl (RangeError "Exponent must be non-negative")
  else inr (a ^ b).

(** [a / b] on bigints truncates towards zero and throws for [0n]. *)
Definition BigInt_div (a b : Z) : Exc Z :=
  if b =? 0 then inl (RangeError "Division by zero")
  else inr (Z.quot a b).

(** *** Numbers *)

Abbreviation number := float (only parsing).

(** The binary64 value nearest to [n/d] (ties to even). *)
Definition round_div (s : bool) (n d : positive) : spec_float :=
  let '(mz, ez, lz) := SFdiv_core_binary prec emax (Zpos n) 0 (Zpos d) 0 in
  binary_round_aux prec emax s mz ez lz.

Definition number_of_ratio (n d : Z) : number :=
  match n, d with
  | Zpos p, Zpos q => SF2Prim (round_div false p q)
  | Zneg p, Zpos q => SF2Prim (round_div true p q)
  | _, _ => 0%float
  end.

(** [Number(z)] for a bigint [z]. *)
Definition Number_of_bigint (z : Z) : number :=
  SF2Prim (binary_normalize prec emax z 0 false).

(** The exact value of a finite number, as a fraction. *)
Definition ratio_of_finite (m : positive) (e : Z) : Z * Z :=
  if 0 <=? e then (Zpos m * 2 ^ e, 1) else (Zpos m, 2 ^ (- e)).

(** *** [Number.prototype.toString]

    The shortest decimal digit string [s] (of [k] digits) and exponent [n]
    with [s * 10^(n-k)] rounding to the number, the closest one to the
    number when several have that length (ECMAScript, Number::toString
    with radix 10). *)

Definition scale10 (m t : Z) : Z * Z :=
  if 0 <=? t then (m * 10 ^ t, 1) else (m, 10 ^ (- t)).

(** [num/den < 10^n] *)
Definition below_pow10 (num den n : Z) : bool :=
  if 0 <=? n then num <? den * 10 ^ n else num * 10 ^ (- n) <? den.

Fixpoint first_pow10_above (fuel : nat) (num den n : Z) : Z :=
  match fuel with
  | O => n
  | S fuel' =>
      if below_pow10 num den n then n
      else first_pow10_above fuel' num den (n + 1)
  end.

(** The [n] with [10^(n-1) <= num/den < 10^n], searched upwards from an
    underestimate read off the binary lengths. *)
Definition decimal_exponent (num den : Z) : Z :=
  first_pow10_above 8 num den
    (((Z.log2 num - Z.log2 den - 1) * 30103) / 100000 - 1).

(** [floor ((num/den) / 10^t)] *)
Definition floor_scaled (num den t : Z) : Z :=
  if 0 <=? t then num / (den * 10 ^ t) else (num * 10 ^ (- t)) / den.

Definition roundtrips (x : number) (s t : Z) : bool :=
  let '(a, b) := scale10 s t in PrimFloat.Leibniz.eqb (number_of_ratio a b) x.

(** Is [s_lo * 10^t] nearer to [num/den] than [(s_lo+1) * 10^t]
    (the even one on a tie)? *)
Definition lo_is_closer (num den s_lo t : Z) : bool :=
  let '(dl, dh) :=
    if 0 <=? t
    then (num - s_lo * 10 ^ t * den, (s_lo + 1) * 10 ^ t * den - num)
    else (num * 10 ^ (- t) - s_lo * den, (s_lo + 1) * den - num * 10 ^ (- t)) in
  ((dl <? dh) || ((dl =? dh) && Z.even s_lo))%bool.

Fixpoint shortest_digits (ks : list Z) (x : number) (num den n0 : Z)
  : Z * Z * Z :=
  match ks with
  | [] => (floor_scaled num den (n0 - 17), 17, n0)
  | k :: ks' =>
      let t := n0 - k in
      let lo := floor_scaled num den t in
      let hi := lo + 1 in
      let pick (s : Z) :=
        if s =? 10 ^ k then (10 ^ (k - 1), k, n0 + 1) else (s, k, n0) in
      match roundtrips x lo t, roundtrips x hi t with
      | true, true => if lo_is_closer num den lo t then pick lo else pick hi
      | true, false => pick lo
      | false, true => pick hi
      | false, false => shortest_digits ks' x num den n0
      end
  end.

Definition format_decimal (s k n : Z) : string :=
  let ds := BigInt_toString s in
  if ((k <=? n) && (n <=? 21))%bool then (ds ++ zeros (Z.to_nat (n - k)))%string
  else if ((0 <? n) && (n <=? 21))%bool then
    (substring 0 (Z.to_nat n) ds ++ "." ++
     substring (Z.to_nat n) (Z.to_nat (k - n)) ds)%string
  else if ((-6 <? n) && (n <=? 0))%bool then
    ("0." ++ zeros (Z.to_nat (- n)) ++ ds)%string
  else
    let e := n - 1 in
    let sg := if e <? 0 then "-" else "+" in
    let es := (sg ++ BigInt_toString (Z.abs e))%string in
    if k =? 1 then (ds ++ "e" ++ es)%string
    else (substring 0 1 ds ++ "." ++
          substring 1 (Z.to_nat (k - 1)) ds ++ "e" ++ es)%string.

Definition Number_toString (x : number) : string :=
  match Prim2SF x with
  | S754_nan => "NaN"
  | S754_zero _ => "0"
  | S754_infinity s => if s then "-Infinity" else "Infinity"
  | S754_finite sg m e =>
      let '(num, den) := ratio_of_finite m e in
      let n0 := decimal_exponent num den in
      let '(s, k, n) :=
        shortest_digits [1;2;3;4;5;6;7;8;9;10;11;12;13;14;15;16;17]
                        (abs x) num den n0 in
      ((if sg then "-" else "") ++ format_decimal s k n)%string
  end.

(** *** [Number(string)] on decimal literals [ddd], [ddd.ddd], [.ddd],
    with an optional leading minus; anything else is [NaN]. *)
Definition Number_of_string (str : string) : number :=
  let '(neg, body) :=
    if startsWith_minus str then (true, slice_from 1 str) else (false, str) in
  let '(int_part, frac_opt) := split_dot body in
  let frac := match frac_opt with Some f => f | None => EmptyString end in
  if (all_digits int_part && all_digits frac &&
      negb ((String.length int_part =? 0)%nat && (String.length frac =? 0)%nat))%bool
  then
    let num := digits_value (digits_value 0 int_part) frac in
    let den := 10 ^ Z.of_nat (String.length frac) in
    if num =? 0 then (if neg then (-0)%float else 0%float)
    else number_of_ratio (if neg then - num else num) den
  else nan.

(** [Math.round]: the nearest integer, the larger one on a tie. *)
Definition Math_round (x : number) : number :=
  match Prim2SF x with
  | S754_finite sg m e =>
      let '(num, den) := ratio_of_finite m e in
      let r := if sg then (den - 2 * num) / (2 * den) else (2 * num + den) / (2 * den) in
      if r =? 0 then (if sg then (-0)%float else 0%float) else Number_of_bigint r
  | _ => x
  end.

End JS.

(** ** The [viem/utils] unit conversions used by the big-number helpers

    [parseUnits] and [formatUnits] come from the viem library, a
    dependency of the program; they are modelled after the library, step
    by step on strings. *)

Module Viem.
Import JS.

(** The guard of [parseUnits]: an optional minus sign, digits, an
    optional dot, digits, and nothing else. *)
Definition is_decimal_number (value : string) : bool :=
  let body := if startsWith_minus value then slice_from 1 value else value in
  let '(i, f) := split_dot body in
  (all_digits i && match f with Some f' => all_digits f' | None => true end)%bool.

(** [parseUnits(value, decimals)]: the decimal string times
    [10^decimals] as a bigint, digits beyond [decimals] rounded half up. *)
Definition parseUnits (value : string) (decimals : nat) : Exc Z :=
  if negb (is_decimal_number value) then inl (InvalidDecimalNumberError value)
  else
    let '(integer, fraction_opt) := split_dot value in
    let fraction := match fraction_opt with Some f => f | None => "0" end in
    let negative := startsWith_minus integer in
    let integer := if negative then slice_from 1 integer else integer in
    let fraction := trim_trailing_zeros fraction in
    try parts <-
      (if (decimals =? 0)%nat then
         if (Math_round (Number_of_string ("." ++ fraction)%string) =? 1)%float
         then try i <- BigInt_of_string integer; inr (BigInt_toString (i + 1), "")
         else inr (integer, "")
       else if (decimals <? String.length fraction)%nat then
         let left := slice 0 (decimals - 1) fraction in
         let unit := slice (decimals - 1) decimals fraction in
         let right := slice_from decimals fraction in
         let rounded := Math_round (Number_of_string (unit ++ "." ++ right)%string) in
         try fraction <-
           (if (9 <? rounded)%float
            then try l <- BigInt_of_string left;
                 inr (padStart0 (String.length left + 1) (BigInt_toString (l + 1) ++ "0")%string)
            else inr (left ++ Number_toString rounded)%string);
         try carried <-
           (if (decimals <? String.length fraction)%nat
            then try i <- BigInt_of_string integer;
                 inr (BigInt_toString (i + 1), slice_from 1 fraction)
            else inr (integer, fraction));
         inr (fst carried, slice 0 decimals (snd carried))
       else inr (integer, padEnd0 decimals fraction));
    BigInt_of_string ((if negative then "-" else "") ++ fst parts ++ snd parts)%string.

(** [formatUnits(value, decimals)]: the bigint divided by [10^decimals],
    as a decimal string without trailing zeros. *)
Definition formatUnits (value : Z) (decimals : nat) : string :=
  let display := BigInt_toString value in
  let negative := startsWith_minus display in
  let display := if negative then slice_from 1 display else display in
  let display := padStart0 decimals display in
  let integer := slice 0 (String.length display - decimals) display in
  let fraction := slice_from (String.length display - decimals) display in
  let fraction := trim_trailing_zeros fraction in
  ((if negative then "-" else "") ++
   (if (String.length integer =? 0)%nat then "0" else integer) ++
   (if (String.length fraction =? 0)%nat then "" else "." ++ fraction))%string.

End Viem.

(** ** Configuration ([src/config.ts]) *)

Record Fees : Set := {
  PHARAOH : JS.number;
  SHADOW : JS.number;
  BRIDGE_USDT : JS.number;
  BRIDGE_USDC : JS.number
}.

Record Config : Set := {
  FEES : Fees;
  PROFIT_THRESHOLD : JS.number;
  START_USDC : JS.number;
  LIVE_MODE : bool
}.

(** The values taken when no environment variable overrides them. *)
Definition default_config : Config := {|
  FEES := {| PHARAOH := 0.00005; SHADOW := 0.0001;
             BRIDGE_USDT := 0.1; BRIDGE_USDC := 0.1 |};
  PROFIT_THRESHOLD := 0.01;
  START_USDC := 10;
  LIVE_MODE := false
|}.

Definition with_live_mode (b : bool) (cfg : Config) : Config := {|
  FEES := FEES cfg;
  PROFIT_THRESHOLD := PROFIT_THRESHOLD cfg;
  START_USDC := START_USDC cfg;
  LIVE_MODE := b
|}.

Definition USDC : string := "0xB97EF9Ef8734C71904D8002F8b6Bc66Dd9c48a6E".
Definition USDT : string := "0xc7198437980c041c805A1EDcbA50c1Ce5db95118".

(** [a.toLowerCase() === b.toLowerCase()], the address comparison used
    throughout. *)
Definition same_address (a b : string) : bool :=
  String.eqb (JS.toLowerCase a) (JS.toLowerCase b).

(** ** Big-number helpers *)

Definition bn (num : JS.number) (decimals : nat) : Exc Z :=
  Viem.parseUnits (JS.Number_toString num) decimals.

Definition bnToNum (bnVal : Z) (decimals : nat) : JS.number :=
  JS.Number_of_string (Viem.formatUnits bnVal decimals).

Definition bnMul (a b : Z) (decimals : nat) : Exc Z :=
  try unit <- Viem.parseUnits "1" decimals;
  JS.BigInt_div (a * b) unit.

Definition bnDiv (a b : Z) (decimals : nat) : Exc Z :=
  try unit <- Viem.parseUnits "1" decimals;
  JS.BigInt_div (a * unit) b.

(** ** Effects: the trace monad

    What a run does besides computing is recorded as a list of events, the
    oldest first.  The transaction hash of a mock swap (a random label) and
    the wording of the log lines are left out; each log line is an event
    carrying the values it prints. *)

Inductive Collaborator : Set := RealSwap | RealCcipBridge | RealStargateBridge.
Inductive Bridge : Set := CCIP | Stargate.
Inductive Direction : Set := DirUSDC | DirUSDT.

Inductive Event : Set :=
| EvSleep (ms : Z)
| EvRetryFailed (attempt : Z) (err : JsError)
| EvLiveAttempt (c : Collaborator)
| EvMockSwap (dex chain fromToken toToken : string)
             (amountIn afterFee slippage amountOut : JS.number)
| EvBridgeStart (b : Bridge) (fromChain toChain token : string) (amount : JS.number)
| EvBridgeDone (b : Bridge) (toChain : string) (received : JS.number)
| EvExecute (d : Direction)
| EvDryRun
| EvRoundTrip (d : Direction) (final profit : JS.number)
| EvSimulated (label : string) (final profit : JS.number)
| EvProfitable (d : Direction) (profit : JS.number)
| EvNoOpportunity
| EvCycleError (err : JsError).

Definition Trace : Set := list Event.

Definition M (A : Type) : Type := Trace -> Exc A * Trace.

Definition ret {A : Type} (a : A) : M A := fun w => (inr a, w).

Definition throw {A : Type} (e : JsError) : M A := fun w => (inl e, w).

Definition bind {A B : Type} (m : M A) (k : A -> M B) : M B :=
  fun w =>
    match m w with
    | (inl e, w') => (inl e, w')
    | (inr a, w') => k a w'
    end.

Definition emit (ev : Event) : M unit := fun w => (inr tt, w ++ [ev]).

Definition lift {A : Type} (c : Exc A) : M A := fun w => (c, w).

Definition catch {A : Type} (m : M A) (handler : JsError -> M A) : M A :=
  fun w =>
    match m w with
    | (inl e, w') => handler e w'
    | (inr a, w') => (inr a, w')
    end.

Notation "x <- m ;; k" := (bind m (fun x => k))
  (at level 61, m at next level, right associativity).
Notation "m ;;; k" := (bind m (fun _ => k))
  (at level 61, right associativity).

Definition sleep (ms : Z) : M unit := emit (EvSleep ms).

(** ** The retry helper

    [while (true)] is unrolled [fuel] times; [None] means the fuel ran out
    before the loop left through [return] or [throw]. *)

Fixpoint retry_loop {A : Type} (fuel : nat) (fn : M A)
    (maxRetries baseDelay attempt : Z) (w : Trace) : option (Exc A * Trace) :=
  match fuel with
  | O => None
  | S fuel' =>
      match fn w with
      | (inr a, w1) => Some (inr a, w1)
      | (inl err, w1) =>
          let attempt := attempt + 1 in
          let w2 := w1 ++ [EvRetryFailed attempt err] in
          if attempt >? maxRetries then Some (inl err, w2)
          else retry_loop fuel' fn maxRetries baseDelay attempt
                          (w2 ++ [EvSleep (baseDelay * 2 ^ (attempt - 1))])
      end
  end.

(** The loop needs at most [maxRetries + 1] rounds (see
    [retry_loop_terminates]); the last branch is never taken. *)
Definition retryAsync {A : Type} (fn : M A) (maxRetries baseDelay : Z) : M A :=
  fun w =>
    match retry_loop (S (Z.to_nat maxRetries)) fn maxRetries baseDelay 0 w with
    | Some r => r
    | None => (inl (Error "unreachable"), w)
    end.

(** ** Price from the square-root price

    The decimal counts are the [uint8] values read from the token
    contracts; they are integers, and [BigInt(decimalsToken0 -
    decimalsToken1)] is their difference. *)

Definition getPriceFromSqrtPriceX96BigInt
    (sqrtPriceX96 : Z) (decimalsToken0 decimalsToken1 : Z) : Exc JS.number :=
  try square <- JS.BigInt_pow sqrtPriceX96 2;
  try scale <- JS.BigInt_pow 10 (decimalsToken0 - decimalsToken1);
  let numerator := square * scale in
  let denominator := Z.shiftl 1 192 in
  inr (JS.Number_of_bigint numerator / JS.Number_of_bigint denominator)%float.

(** What the chain answers for one pool: [token0()], [token1()],
    [slot0()[0]] and the two [decimals()]. *)
Record PoolReply : Set := {
  reply_token0 : string;
  reply_token1 : string;
  reply_sqrtPriceX96 : Z;
  reply_decimals0 : Z;
  reply_decimals1 : Z
}.

(** ** The fee model and the direction simulator

    The simulator only multiplies, divides and subtracts.  It is written
    once over the arithmetic it uses: [binary64] is the arithmetic the
    program runs with, [exact] the real-number arithmetic it approximates. *)

Class Arith (N : Type) : Type := {
  one : N;
  default_minAmountOutFactor : N;
  mul : N -> N -> N;
  div : N -> N -> N;
  sub : N -> N -> N
}.

#[export] Instance binary64 : Arith JS.number := {|
  one := 1%float;
  default_minAmountOutFactor := 0.995%float;
  mul := PrimFloat.mul;
  div := PrimFloat.div;
  sub := PrimFloat.sub
|}.

#[export] Instance exact : Arith R := {|
  one := 1%R;
  default_minAmountOutFactor := (995 / 1000)%R;
  mul := Rmult;
  div := Rdiv;
  sub := Rminus
|}.

Definition getSymbol (address : string) : string :=
  if same_address address USDC then "USDC"
  else if same_address address USDT then "USDT"
  else "UNKNOWN".

Section Simulator.
Context {N : Type} `{Arith N}.

Definition applySwapFee (amount fee : N) : N := mul amount (sub one fee).

Record PoolQuote : Type := {
  token0 : string;
  token1 : string;
  price : N
}.

(** The argument of [simulateDirection]; [decimalsIn] and [decimalsOut]
    are accepted by the source and never read. *)
Record DirectionInput : Type := {
  startAmount : N;
  poolA : PoolQuote;
  poolB : PoolQuote;
  swapFeeA : N;
  swapFeeB : N;
  bridgeCostA : N;
  bridgeCostB : N;
  directionLabel : string;
  tokenIn : string;
  tokenOut : string;
  minAmountOutFactor : option N
}.

Record DirectionResult : Type := {
  r_directionLabel : string;
  r_startAmount : N;
  r_finalAmount : N;
  r_profit : N;
  r_minAmountOut : N;
  r_tokenIn : string;
  r_tokenOut : string
}.

Definition simulateDirection (i : DirectionInput) : DirectionResult :=
  let minAmountOutFactor :=
    match minAmountOutFactor i with
    | Some f => f
    | None => default_minAmountOutFactor
    end in
  let afterSwapA :=
    if same_address (token0 (poolA i)) (tokenIn i)
    then applySwapFee (mul (startAmount i) (price (poolA i))) (swapFeeA i)
    else applySwapFee (div (startAmount i) (price (poolA i))) (swapFeeA i) in
  let afterBridgeA := sub afterSwapA (bridgeCostA i) in
  let afterSwapB :=
    if same_address (token0 (poolB i)) (tokenOut i)
    then applySwapFee (div afterBridgeA (price (poolB i))) (swapFeeB i)
    else applySwapFee (mul afterBridgeA (price (poolB i))) (swapFeeB i) in
  let finalAmount := sub afterSwapB (bridgeCostB i) in
  let profit := sub finalAmount (startAmount i) in
  let minAmountOut := mul (startAmount i) minAmountOutFactor in
  {| r_directionLabel := directionLabel i;
     r_startAmount := startAmount i;
     r_finalAmount := finalAmount;
     r_profit := profit;
     r_minAmountOut := minAmountOut;
     r_tokenIn := getSymbol (tokenIn i);
     r_tokenOut := getSymbol (tokenOut i) |}.

End Simulator.

Arguments PoolQuote N : clear implicits.
Arguments DirectionInput N : clear implicits.
Arguments DirectionResult N : clear implicits.

(** ** Mock bridges and swaps *)

Definition or_default {A : Type} (o : option A) (d : A) : A :=
  match o with
  | Some a => a
  | None => d
  end.

Definition mockBridge (b : Bridge) (defaultDelay : Z)
    (fromChain toChain : string) (amount : JS.number) (token : string)
    (simulatedCost : option JS.number) (simulatedDelay : option Z) : M JS.number :=
  let simulatedCost := or_default simulatedCost 0.1%float in
  let simulatedDelay := or_default simulatedDelay defaultDelay in
  emit (EvBridgeStart b fromChain toChain token amount) ;;;
  sleep simulatedDelay ;;;
  emit (EvBridgeDone b toChain (amount - simulatedCost)%float) ;;;
  ret (amount - simulatedCost)%float.

Definition mockCcipBridge := mockBridge CCIP 5000.
Definition mockStargateBridge := mockBridge Stargate 7000.

(** The arithmetic of [mockSwap], up to its log line: the amounts after
    the fee, of the slippage, and out, as 6-decimal fixed-point bigints. *)
Definition mockSwap_amounts (fromToken toToken : string)
    (amountIn price fee simulatedSlippage : JS.number) : Exc (Z * Z * Z) :=
  let decimals := 6%nat in
  try amountInBN <- bn amountIn decimals;
  try priceBN <- bn price decimals;
  try amountOutBeforeFeeBN <-
    (if same_address fromToken toToken then inr amountInBN
     else if same_address fromToken USDC then bnMul amountInBN priceBN decimals
     else bnDiv amountInBN priceBN decimals);
  try feeBN <- bn (1 - fee)%float decimals;
  try amountOutAfterFeeBN <- bnMul amountOutBeforeFeeBN feeBN decimals;
  try slippageFractionBN <- bn simulatedSlippage decimals;
  try slippageBN <- bnMul amountOutAfterFeeBN slippageFractionBN decimals;
  let finalAmountOutBN := amountOutAfterFeeBN - slippageBN in
  inr (amountOutAfterFeeBN, slippageBN, finalAmountOutBN).

Definition mockSwap (dex chain fromToken toToken : string)
    (amountIn price fee : JS.number) (simulatedSlippage : option JS.number)
  : M JS.number :=
  let simulatedSlippage := or_default simulatedSlippage 0.0005%float in
  let decimals := 6%nat in
  amounts <- lift (mockSwap_amounts fromToken toToken amountIn price fee
                                    simulatedSlippage) ;;
  let '(amountOutAfterFeeBN, slippageBN, finalAmountOutBN) := amounts in
  emit (EvMockSwap dex chain fromToken toToken amountIn
          (bnToNum amountOutAfterFeeBN decimals) (bnToNum slippageBN decimals)
          (bnToNum finalAmountOutBN decimals)) ;;;
  ret (bnToNum finalAmountOutBN decimals).

(** ** Live stubs

    Each live operation is the retry helper around a body that is not
    implemented yet; [EvLiveAttempt] marks one run of that body.  The
    stubs ignore their arguments and never return a value. *)

Definition notImplemented (c : Collaborator) (msg : string) : M Empty_set :=
  retryAsync (emit (EvLiveAttempt c) ;;; throw (Error msg)) 3 1000.

Definition realSwap (fromToken toToken : string) (amountIn minAmountOut : Z)
    (slippage : JS.number) (chain : string) : M Empty_set :=
  notImplemented RealSwap "realSwap not implemented".

Definition realCcipBridge (fromChain toChain : string) (amount : Z)
    (token : string) : M Empty_set :=
  notImplemented RealCcipBridge "realCcipBridge not implemented".

Definition realStargateBridge (fromChain toChain : string) (amount : Z)
    (token : string) : M Empty_set :=
  notImplemented RealStargateBridge "realStargateBridge not implemented".

Definition never {A : Type} (m : M Empty_set) : M A :=
  bind m (fun v => match v with end).

(** ** The execution pipeline *)

(** The body of [simulateExecution]. *)
Definition runStages (cfg : Config) (direction : Direction)
    (pharaoh shadow : PoolQuote JS.number) : M unit :=
  (if negb (LIVE_MODE cfg) then emit EvDryRun else ret tt) ;;;
  match direction with
  | DirUSDC =>
      let usdc := START_USDC cfg in
      swap1 <-
        (if LIVE_MODE cfg then
           amountIn <- lift (bn usdc 6) ;;
           minAmountOut <- lift (bn 0 6) ;;
           never (realSwap USDC USDT amountIn minAmountOut 0.001 "Avalanche")
         else
           mockSwap "Pharaoh" "Avalanche" USDC USDT usdc (price pharaoh)
                    (PHARAOH (FEES cfg)) None) ;;
      bridge1 <-
        (if LIVE_MODE cfg then
           amount <- lift (bn swap1 6) ;;
           never (realStargateBridge "Avalanche" "Sonic" amount USDT)
         else
           mockStargateBridge "Avalanche" "Sonic" swap1 USDT None None) ;;
      swap2 <-
        (if LIVE_MODE cfg then
           amountIn <- lift (bn bridge1 6) ;;
           minAmountOut <- lift (bn 0 6) ;;
           never (realSwap USDT USDC amountIn minAmountOut 0.001 "Sonic")
         else
           mockSwap "Shadow" "Sonic" USDT USDC bridge1 (price shadow)
                    (SHADOW (FEES cfg)) None) ;;
      bridge2 <-
        (if LIVE_MODE cfg then
           amount <- lift (bn swap2 6) ;;
           never (realCcipBridge "Sonic" "Avalanche" amount USDC)
         else
           mockCcipBridge "Sonic" "Avalanche" swap2 USDC None None) ;;
      emit (EvRoundTrip DirUSDC bridge2 (bridge2 - START_USDC cfg)%float)
  | DirUSDT =>
      let usdt := START_USDC cfg in
      swap1 <-
        (if LIVE_MODE cfg then
           amountIn <- lift (bn usdt 6) ;;
           minAmountOut <- lift (bn 0 6) ;;
           never (realSwap USDT USDC amountIn minAmountOut 0.001 "Avalanche")
         else
           mockSwap "Pharaoh" "Avalanche" USDT USDC usdt (price pharaoh)
                    (PHARAOH (FEES cfg)) None) ;;
      bridge1 <-
        (if LIVE_MODE cfg then
           amount <- lift (bn swap1 6) ;;
           never (realCcipBridge "Avalanche" "Sonic" amount USDC)
         else
           mockCcipBridge "Avalanche" "Sonic" swap1 USDC None None) ;;
      swap2 <-
        (if LIVE_MODE cfg then
           amountIn <- lift (bn bridge1 6) ;;
           minAmountOut <- lift (bn 0 6) ;;
           never (realSwap USDC USDT amountIn minAmountOut 0.001 "Sonic")
         else
           mockSwap "Shadow" "Sonic" USDC USDT bridge1 (price shadow)
                    (SHADOW (FEES cfg)) None) ;;
      bridge2 <-
        (if LIVE_MODE cfg then
           amount <- lift (bn swap2 6) ;;
           never (realStargateBridge "Sonic" "Avalanche" amount USDT)
         else
           mockStargateBridge "Sonic" "Avalanche" swap2 USDT None None) ;;
      emit (EvRoundTrip DirUSDT bridge2 (bridge2 - START_USDC cfg)%float)
  end.

(** [EvExecute] marks the call; the rest is the body. *)
Definition simulateExecution (cfg : Config) (direction : Direction)
    (pharaoh shadow : PoolQuote JS.number) : M unit :=
  emit (EvExecute direction) ;;;
  runStages cfg direction pharaoh shadow.

(** ** The opportunity evaluator

    One polling cycle.  The reads of the two pools are inputs of the
    cycle; [logPoolInfo], which only prints, is left out. *)

(** [getPharaohPrice] and [getShadowPrice] differ in the chain they read;
    [reply] is what that chain answered (or the failure of the read). *)
Definition getPoolPrice (reply : Exc PoolReply) : Exc (PoolQuote JS.number) :=
  try r <- reply;
  try price <- getPriceFromSqrtPriceX96BigInt
                 (reply_sqrtPriceX96 r) (reply_decimals0 r) (reply_decimals1 r);
  inr {| token0 := reply_token0 r; token1 := reply_token1 r; price := price |}.

Definition getPharaohPrice := getPoolPrice.
Definition getShadowPrice := getPoolPrice.

Definition direction1 (cfg : Config) (pharaoh shadow : PoolQuote JS.number)
  : DirectionInput JS.number := {|
  startAmount := START_USDC cfg;
  poolA := pharaoh;
  poolB := shadow;
  swapFeeA := PHARAOH (FEES cfg);
  swapFeeB := SHADOW (FEES cfg);
  bridgeCostA := BRIDGE_USDT (FEES cfg);
  bridgeCostB := BRIDGE_USDC (FEES cfg);
  directionLabel := "USDC→USDT→USDC";
  tokenIn := USDC;
  tokenOut := USDC;
  minAmountOutFactor := None
|}.

Definition direction2 (cfg : Config) (pharaoh shadow : PoolQuote JS.number)
  : DirectionInput JS.number := {|
  startAmount := START_USDC cfg;
  poolA := pharaoh;
  poolB := shadow;
  swapFeeA := PHARAOH (FEES cfg);
  swapFeeB := SHADOW (FEES cfg);
  bridgeCostA := BRIDGE_USDC (FEES cfg);
  bridgeCostB := BRIDGE_USDT (FEES cfg);
  directionLabel := "USDT→USDC→USDT";
  tokenIn := USDT;
  tokenOut := USDT;
  minAmountOutFactor := None
|}.

(** [a > b] on numbers. *)
Definition gt (a b : JS.number) : bool := (b <? a)%float.

Definition logResult (dir : DirectionResult JS.number) : M unit :=
  emit (EvSimulated (r_directionLabel dir) (r_finalAmount dir) (r_profit dir)).

Definition simulateArbitrage (cfg : Config) (pharaohReply shadowReply : Exc PoolReply)
  : M unit :=
  catch
    (pharaoh <- lift (getPharaohPrice pharaohReply) ;;
     shadow <- lift (getShadowPrice shadowReply) ;;
     let dir1 := simulateDirection (direction1 cfg pharaoh shadow) in
     let dir2 := simulateDirection (direction2 cfg pharaoh shadow) in
     logResult dir1 ;;;
     logResult dir2 ;;;
     if gt (r_profit dir1) (PROFIT_THRESHOLD cfg) then
       emit (EvProfitable DirUSDC (r_profit dir1)) ;;;
       simulateExecution cfg DirUSDC pharaoh shadow
     else if gt (r_profit dir2) (PROFIT_THRESHOLD cfg) then
       emit (EvProfitable DirUSDT (r_profit dir2)) ;;;
       simulateExecution cfg DirUSDT pharaoh shadow
     else
       emit EvNoOpportunity)
    (fun err => emit (EvCycleError err)).

(** [main] (src/index.ts:775-785): the polling loop, one cycle and then a
    pause of 10 s, again and again.  The source loop has no exit;
    [main cfg replies] is its first [length replies] iterations, the
    i-th of which finds the two pools answering with the i-th pair of
    [replies].  The start-up warning is console output only. *)
Fixpoint main (cfg : Config) (replies : list (Exc PoolReply * Exc PoolReply))
  : M unit :=
  match replies with
  | [] => ret tt
  | (pharaohReply, shadowReply) :: rest =>
      simulateArbitrage cfg pharaohReply shadowReply ;;;
      sleep 10000 ;;;
      main cfg rest
  end.

(** The directions whose execution a trace records, in order. *)
Fixpoint executions (w : Trace) : list Direction :=
  match w with
  | [] => []
  | EvExecute d :: w' => d :: executions w'
  | _ :: w' => executions w'
  end.

Fixpoint live_attempts (w : Trace) : list Collaborator :=
  match w with
  | [] => []
  | EvLiveAttempt c :: w' => c :: live_attempts w'
  | _ :: w' => live_attempts w'
  end.

Fixpoint sleeps (w : Trace) : list Z :=
  match w with
  | [] => []
  | EvSleep ms :: w' => ms :: sleeps w'
  | _ :: w' => sleeps w'
  end.

(** * Vocabulary of the statements *)

(** NaN and the two infinities, on the specification side of a number. *)
Definition SF_nonfinite (x : spec_float) : bool :=
  match x with
  | S754_nan | S754_infinity _ => true
  | _ => false
  end.

Definition with_minAmountOutFactor {N : Type} (f : option N)
    (i : DirectionInput N) : DirectionInput N := {|
  startAmount := startAmount i;
  poolA := poolA i;
  poolB := poolB i;
  swapFeeA := swapFeeA i;
  swapFeeB := swapFeeB i;
  bridgeCostA := bridgeCostA i;
  bridgeCostB := bridgeCostB i;
  directionLabel := directionLabel i;
  tokenIn := tokenIn i;
  tokenOut := tokenOut i;
  minAmountOutFactor := f
|}.

(** The scenario of [test/simulateDirection.test.ts]. *)
Definition test_scenario : DirectionInput JS.number := {|
  startAmount := 10%float;
  poolA := {| token0 := "0xA"; token1 := "0xB"; price := 1.01%float |};
  poolB := {| token0 := "0xB"; token1 := "0xA"; price := 0.99%float |};
  swapFeeA := 0.0005%float;
  swapFeeB := 0.0005%float;
  bridgeCostA := 0.1%float;
  bridgeCostB := 0.1%float;
  directionLabel := "A→B→A";
  tokenIn := "0xA";
  tokenOut := "0xA";
  minAmountOutFactor := Some 0.995%float
|}.

(** A round trip whose first pool quotes a zero price and is crossed
    against its orientation, so that the first swap divides by it. *)
Definition zero_price_scenario (start : JS.number) : DirectionInput JS.number := {|
  startAmount := start;
  poolA := {| token0 := USDT; token1 := USDC; price := 0%float |};
  poolB := {| token0 := USDT; token1 := USDC; price := 1%float |};
  swapFeeA := 0.0005%float;
  swapFeeB := 0.0005%float;
  bridgeCostA := 0.1%float;
  bridgeCostB := 0.1%float;
  directionLabel := "USDC→USDT→USDC";
  tokenIn := USDC;
  tokenOut := USDC;
  minAmountOutFactor := None
|}.


(** The same prices over pools of opposite orientation, as in the
    repository's test: both swaps multiply. *)
Definition opposite_scenario {N : Type} (zero ten two half : N)
  : DirectionInput N := {|
  startAmount := ten;
  poolA := {| token0 := "0xA"; token1 := "0xB"; price := two |};
  poolB := {| token0 := "0xB"; token1 := "0xA"; price := half |};
  swapFeeA := zero;
  swapFeeB := zero;
  bridgeCostA := zero;
  bridgeCostB := zero;
  directionLabel := "A→B→A";
  tokenIn := "0xA";
  tokenOut := "0xA";
  minAmountOutFactor := None
|}.

(** ** Traces *)

(** A computation that, from every trace, only appends events accepted
    by [P]. *)
Definition appends {A : Type} (P : Event -> bool) (m : M A) : Prop :=
  forall w, exists evs, snd (m w) = w ++ evs /\ forallb P evs = true.

Definition always_fails {A : Type} (fn : M A) : Prop :=
  forall w, exists e w', fn w = (inl e, w').

(** Events of the simulated path: everything but a run of a live
    operation and the retry helper's failure report. *)
Definition is_simulated (ev : Event) : bool :=
  match ev with
  | EvLiveAttempt _ | EvRetryFailed _ _ => false
  | _ => true
  end.

(** What a live stub leaves on the trace when every attempt fails. *)
Definition exhausted (c : Collaborator) (msg : string) : Trace :=
  [EvLiveAttempt c; EvRetryFailed 1 (Error msg); EvSleep 1000;
   EvLiveAttempt c; EvRetryFailed 2 (Error msg); EvSleep 2000;
   EvLiveAttempt c; EvRetryFailed 3 (Error msg); EvSleep 4000;
   EvLiveAttempt c; EvRetryFailed 4 (Error msg)].

(** The body the live stubs hand to the retry helper. *)
Definition stub_body (c : Collaborator) (msg : string) : M Empty_set :=
  emit (EvLiveAttempt c) ;;; throw (Error msg).

(** The tokens a direction swaps from and to on its first leg. *)
Definition first_leg (d : Direction) : string * string :=
  match d with
  | DirUSDC => (USDC, USDT)
  | DirUSDT => (USDT, USDC)
  end.

(** The outcome of a simulated run, read off the arithmetic of its two
    mock swaps alone: the run fails with the error of the first swap whose
    fixed-point arithmetic throws, and succeeds otherwise. *)
Definition simulated_outcome (cfg : Config) (d : Direction)
    (pharaoh shadow : PoolQuote JS.number) : Exc unit :=
  let '(tokA, tokB) := first_leg d in
  try a1 <- mockSwap_amounts tokA tokB (START_USDC cfg) (price pharaoh)
                             (PHARAOH (FEES cfg)) 0.0005%float;
  let received1 := (bnToNum (snd a1) 6 - 0.1)%float in
  try a2 <- mockSwap_amounts tokB tokA received1 (price shadow)
                             (SHADOW (FEES cfg)) 0.0005%float;
  inr tt.

Definition quote (t0 t1 : string) (p : JS.number) : PoolQuote JS.number :=
  {| token0 := t0; token1 := t1; price := p |}.

Definition reply (t0 t1 : string) (sqrtPriceX96 : Z) : PoolReply := {|
  reply_token0 := t0;
  reply_token1 := t1;
  reply_sqrtPriceX96 := sqrtPriceX96;
  reply_decimals0 := 6;
  reply_decimals1 := 6
|}.

(** Events the mock handlers record. *)
Definition mock_event (ev : Event) : bool :=
  match ev with
  | EvMockSwap _ _ _ _ _ _ _ _ | EvBridgeStart _ _ _ _ _
  | EvBridgeDone _ _ _ | EvSleep _ => true
  | _ => false
  end.

Definition no_opportunity_reported (w : Trace) : bool :=
  existsb (fun ev => match ev with EvNoOpportunity => true | _ => false end) w.

(** Events recorded by the stages of the pipeline, in either mode. *)
Definition stage_event (ev : Event) : bool :=
  match ev with
  | EvSleep _ | EvRetryFailed _ _ | EvLiveAttempt _
  | EvMockSwap _ _ _ _ _ _ _ _ | EvBridgeStart _ _ _ _ _
  | EvBridgeDone _ _ _ | EvDryRun | EvRoundTrip _ _ _ => true
  | _ => false
  end.

(** A simulated run that reaches a zero price in a dividing swap:
    the Pharaoh pool quotes 0 and direction USDT divides by it. *)
Definition zero_quote : PoolQuote JS.number := quote USDC USDT 0%float.
Definition unit_quote : PoolQuote JS.number := quote USDC USDT 1%float.

(** The default configuration with the profit threshold lowered to -1,
    so that both directions can exceed it in the same cycle. *)
Definition lenient_config : Config := {|
  FEES := FEES default_config;
  PROFIT_THRESHOLD := (-1)%float;
  START_USDC := START_USDC default_config;
  LIVE_MODE := LIVE_MODE default_config
|}.

(** ** Vocabulary of the further properties *)

(** [failed_rounds fn baseDelay n attempt w w']: from the trace [w] and
    with [attempt] failures counted so far, [fn] fails [n] times in a row,
    each failure reported and followed by its backoff sleep, and the trace
    is then [w']. *)
Inductive failed_rounds {A : Type} (fn : M A) (baseDelay : Z)
  : nat -> Z -> Trace -> Trace -> Prop :=
| rounds_none (attempt : Z) (w : Trace) :
    failed_rounds fn baseDelay 0 attempt w w
| rounds_more (n : nat) (attempt : Z) (w w1 w' : Trace) (e : JsError) :
    fn w = (inl e, w1) ->
    failed_rounds fn baseDelay n (attempt + 1)
      (w1 ++ [EvRetryFailed (attempt + 1) e; EvSleep (baseDelay * 2 ^ attempt)])
      w' ->
    failed_rounds fn baseDelay (S n) attempt w w'.


(** The attempt numbers the retry helper reported as failed. *)
Fixpoint retry_reports (w : Trace) : list Z :=
  match w with
  | [] => []
  | EvRetryFailed n _ :: w' => n :: retry_reports w'
  | _ :: w' => retry_reports w'
  end.

(** [baseDelay * 2^from, ..., baseDelay * 2^(from + n - 1)] *)
Fixpoint backoff (baseDelay : Z) (from : Z) (n : nat) : list Z :=
  match n with
  | O => []
  | S n' => baseDelay * 2 ^ from :: backoff baseDelay (from + 1) n'
  end.

(** [from + 1, ..., from + n] *)
Fixpoint attempt_numbers (from : Z) (n : nat) : list Z :=
  match n with
  | O => []
  | S n' => from + 1 :: attempt_numbers (from + 1) n'
  end.

(** A call that fails until the trace holds [n] failure reports, and
    then returns the number of reports it saw. *)
Definition flaky (n : nat) : M Z :=
  fun w =>
    if (List.length (retry_reports w) <? n)%nat
    then (inl (Error "not yet"), w)
    else (inr (Z.of_nat (List.length (retry_reports w))), w).

(** The amount a mock swap has before the fee, in fixed point: the input
    itself between equal tokens, the input times the price when selling
    USDC, the input divided by the price otherwise. *)
Definition preFee (fromToken toToken : string) (a p : Z) : Z :=
  if same_address fromToken toToken then a
  else if same_address fromToken USDC then Z.quot (a * p) 1000000
  else Z.quot (a * 1000000) p.

Definition with_tokens {N : Type} (tin tout : string) (i : DirectionInput N)
  : DirectionInput N := {|
  startAmount := startAmount i;
  poolA := poolA i;
  poolB := poolB i;
  swapFeeA := swapFeeA i;
  swapFeeB := swapFeeB i;
  bridgeCostA := bridgeCostA i;
  bridgeCostB := bridgeCostB i;
  directionLabel := directionLabel i;
  tokenIn := tin;
  tokenOut := tout;
  minAmountOutFactor := minAmountOutFactor i
|}.

(** The errors a cycle reported through its [catch]. *)
Fixpoint cycle_errors (w : Trace) : list JsError :=
  match w with
  | [] => []
  | EvCycleError e :: w' => e :: cycle_errors w'
  | _ :: w' => cycle_errors w'
  end.

Definition no_cycle_error (ev : Event) : bool :=
  match ev with
  | EvCycleError _ => false
  | _ => true
  end.



(** The default configuration with bridge costs of 5 and a threshold of
    100 in place of 0.1 and 0.01. *)
Definition costly_config : Config := {|
  FEES := {| PHARAOH := PHARAOH (FEES default_config);
             SHADOW := SHADOW (FEES default_config);
             BRIDGE_USDT := 5%float; BRIDGE_USDC := 5%float |};
  PROFIT_THRESHOLD := 100%float;
  START_USDC := START_USDC default_config;
  LIVE_MODE := LIVE_MODE default_config
|}.

(** The two inputs a cycle hands to [simulateDirection], over any
    arithmetic: [direction1] and [direction2] are their instances at the
    configured binary64 values. *)
Definition cycle_direction1 {N : Type} (start feeP feeS costUSDT costUSDC : N)
    (pharaoh shadow : PoolQuote N) : DirectionInput N := {|
  startAmount := start;
  poolA := pharaoh;
  poolB := shadow;
  swapFeeA := feeP;
  swapFeeB := feeS;
  bridgeCostA := costUSDT;
  bridgeCostB := costUSDC;
  directionLabel := "USDC→USDT→USDC";
  tokenIn := USDC;
  tokenOut := USDC;
  minAmountOutFactor := None
|}.

Definition cycle_direction2 {N : Type} (start feeP feeS costUSDT costUSDC : N)
    (pharaoh shadow : PoolQuote N) : DirectionInput N := {|
  startAmount := start;
  poolA := pharaoh;
  poolB := shadow;
  swapFeeA := feeP;
  swapFeeB := feeS;
  bridgeCostA := costUSDC;
  bridgeCostB := costUSDT;
  directionLabel := "USDT→USDC→USDT";
  tokenIn := USDT;
  tokenOut := USDT;
  minAmountOutFactor := None
|}.



(** Numbers that are neither negative nor NaN, on the specification side:
    [+0], the positive finite numbers and [+Infinity]. *)
Definition SF_nonneg (x : spec_float) : bool :=
  match x with
  | S754_zero false | S754_infinity false | S754_finite false _ _ => true
  | _ => false
  end.

(** * Properties *)

(** ** The runtime model on sample values *)

Example toLowerCase_example :
  JS.toLowerCase USDC = "0xb97ef9ef8734c71904d8002f8b6bc66dd9c48a6e".
Proof. reflexivity. Qed.

Example same_address_ignores_case :
  same_address "0xB97EF9Ef8734C71904D8002F8b6Bc66Dd9c48a6E"
               "0xb97ef9ef8734c71904d8002f8b6bc66dd9c48a6e" = true
  /\ same_address USDC USDT = false.
Proof. split; reflexivity. Qed.

Example Number_toString_examples :
  map JS.Number_toString
      [10; 0.1; 0.99995; 9.889506; 1e-7; 1e21; 0; (-42.5); 0.30000000000000004]%float
  = ["10"; "0.1"; "0.99995"; "9.889506"; "1e-7"; "1e+21"; "0"; "-42.5";
     "0.30000000000000004"].
Proof. vm_compute. reflexivity. Qed.

Example Math_round_examples :
  map JS.Math_round [0.5; 4.5; 4.4999; 9.5; 0.49; (-0.5); (-1.5); 2.5]%float
  = [1; 5; 4; 10; 0; (-0); (-1); 3]%float.
Proof. vm_compute. reflexivity. Qed.

Example Number_of_string_examples :
  map JS.Number_of_string ["9.989506"; "0"; "-0.000001"; "."; "12"]
  = [9.989506; 0; (-0.000001); nan; 12]%float.
Proof. vm_compute. reflexivity. Qed.

Example parseUnits_examples :
  map (fun s => Viem.parseUnits s 6)
      ["10"; "0.99995"; "9.889506000000001"; "0.0000005"; "0.0000004";
       "1.9999995"; "-0.1"; "1e-7"; "NaN"]
  = [inr 10000000; inr 999950; inr 9889506; inr 1; inr 0; inr 2000000;
     inr (-100000); inl (InvalidDecimalNumberError "1e-7");
     inl (InvalidDecimalNumberError "NaN")].
Proof. vm_compute. reflexivity. Qed.

Example formatUnits_examples :
  map (fun z => Viem.formatUnits z 6) [10000000; 9989506; 0; -1; 123456789]
  = ["10"; "9.989506"; "0"; "-0.000001"; "123.456789"].
Proof. vm_compute. reflexivity. Qed.

Example bn_roundtrip_example :
  bn 9.989506 6 = inr 9989506 /\ bnToNum 9989506 6 = 9.989506%float.
Proof. split; vm_compute; reflexivity. Qed.

Lemma parseUnits_one : Viem.parseUnits "1" 6 = inr 1000000.
Proof. vm_compute. reflexivity. Qed.

Lemma bnMul_6 (a b : Z) : bnMul a b 6 = inr (Z.quot (a * b) 1000000).
Proof. unfold bnMul. rewrite parseUnits_one. reflexivity. Qed.

Lemma bnDiv_6 (a b : Z) : bnDiv a b 6 = JS.BigInt_div (a * 1000000) b.
Proof. unfold bnDiv. rewrite parseUnits_one. reflexivity. Qed.

(** ** Binary64 facts *)

Section Binary64.


Lemma SFeqb_finite_refl s m e :
  SFeqb (S754_finite s m e) (S754_finite s m e) = true.
Proof.
  unfold SFeqb, SFcompare.
  rewrite Z.compare_refl, Pos.compare_cont_refl.
  destruct s; reflexivity.
Qed.

Lemma is_finite_spec (x : float) :
  is_finite x = negb (SF_nonfinite (Prim2SF x)).
Proof.
  unfold is_finite, is_nan, is_infinity.
  rewrite !eqb_spec, abs_spec.
  change (Prim2SF infinity) with (S754_infinity false).
  destruct (Prim2SF x) as [s|s| |s m e]; try (destruct s; reflexivity).
  - reflexivity.
  - rewrite SFeqb_finite_refl. reflexivity.
Qed.

Lemma is_zero_spec (x : float) :
  is_zero x = true -> exists s, Prim2SF x = S754_zero s.
Proof.
  unfold is_zero. rewrite eqb_spec.
  change (Prim2SF zero) with (S754_zero false).
  destruct (Prim2SF x) as [s|s| |s m e]; try (destruct s; discriminate).
  - eauto.
  - discriminate.
Qed.



Lemma SFmul_nonfinite_l x y :
  SF_nonfinite x = true -> SF_nonfinite (SF64mul x y) = true.
Proof. destruct x, y; simpl; intros; try discriminate; reflexivity. Qed.

Lemma SFsub_nonfinite_l x y :
  SF_nonfinite x = true -> SF_nonfinite (SF64sub x y) = true.
Proof.
  destruct x as [s|s| |s m e], y as [s'|s'| |s' m' e']; simpl; intros;
    try discriminate; try reflexivity.
  destruct s, s'; reflexivity.
Qed.

Lemma SFdiv_nonfinite_l x y :
  SF_nonfinite x = true -> SF_nonfinite (SF64div x y) = true.
Proof. destruct x, y; simpl; intros; try discriminate; reflexivity. Qed.

Lemma SFdiv_zero_r x s : SF_nonfinite (SF64div x (S754_zero s)) = true.
Proof. destruct x; reflexivity. Qed.

Lemma mul_nonfinite_l (x y : float) :
  is_finite x = false -> is_finite (x * y) = false.
Proof.
  rewrite !is_finite_spec, mul_spec, !negb_false_iff.
  apply SFmul_nonfinite_l.
Qed.

Lemma sub_nonfinite_l (x y : float) :
  is_finite x = false -> is_finite (x - y) = false.
Proof.
  rewrite !is_finite_spec, sub_spec, !negb_false_iff.
  apply SFsub_nonfinite_l.
Qed.

Lemma div_nonfinite_l (x y : float) :
  is_finite x = false -> is_finite (x / y) = false.
Proof.
  rewrite !is_finite_spec, div_spec, !negb_false_iff.
  apply SFdiv_nonfinite_l.
Qed.

(** Dividing by a zero never gives a finite number: the quotient is an
    infinity, or NaN when the dividend is itself zero or NaN. *)
Lemma div_by_zero_nonfinite (x z : float) :
  is_zero z = true -> is_finite (x / z) = false.
Proof.
  intros Hz. destruct (is_zero_spec z Hz) as [s Hs].
  rewrite is_finite_spec, div_spec, Hs, negb_false_iff.
  apply SFdiv_zero_r.
Qed.

End Binary64.

(** ** The fee model *)






(** ** The direction simulator *)

(** C1: the result of [simulateDirection] is the four-step composition
    swap A, bridge A, swap B, bridge B; the profit is the final amount
    minus the start amount; [minAmountOut] is the start amount times the
    factor (0.995 when none is given); and the factor has no effect on the
    final amount or the profit. *)
Theorem simulateDirection_four_steps {N : Type} `{Arith N} (i : DirectionInput N) :
  let afterSwapA :=
    if same_address (token0 (poolA i)) (tokenIn i)
    then applySwapFee (mul (startAmount i) (price (poolA i))) (swapFeeA i)
    else applySwapFee (div (startAmount i) (price (poolA i))) (swapFeeA i) in
  let afterBridgeA := sub afterSwapA (bridgeCostA i) in
  let afterSwapB :=
    if same_address (token0 (poolB i)) (tokenOut i)
    then applySwapFee (div afterBridgeA (price (poolB i))) (swapFeeB i)
    else applySwapFee (mul afterBridgeA (price (poolB i))) (swapFeeB i) in
  let finalAmount := sub afterSwapB (bridgeCostB i) in
  r_finalAmount (simulateDirection i) = finalAmount /\
  r_profit (simulateDirection i) = sub finalAmount (startAmount i) /\
  r_minAmountOut (simulateDirection i)
    = mul (startAmount i)
          (or_default (minAmountOutFactor i) default_minAmountOutFactor) /\
  forall f : option N,
    r_finalAmount (simulateDirection (with_minAmountOutFactor f i))
      = r_finalAmount (simulateDirection i) /\
    r_profit (simulateDirection (with_minAmountOutFactor f i))
      = r_profit (simulateDirection i).
Proof.
  cbv zeta. unfold simulateDirection. cbn [r_finalAmount r_profit r_minAmountOut].
  repeat split.
Qed.


Example test_scenario_result :
  r_finalAmount (simulateDirection test_scenario) = 9.790052999750003%float /\
  r_profit (simulateDirection test_scenario) = (-0.20994700024999702)%float /\
  (0 <? r_finalAmount (simulateDirection test_scenario))%float = true /\
  is_finite (r_finalAmount (simulateDirection test_scenario)) = true.
Proof. repeat split; vm_compute; reflexivity. Qed.

(** *** Zero prices *)

(** C5 fails as stated: with a zero price on pool A and the dividing
    branch taken, [simulateDirection] raises nothing; it returns a result
    whose final amount and profit are [Infinity] (start amount 10) or
    [NaN] (start amount 0). *)
Lemma zero_price_yields_infinity_and_nan :
  is_zero (price (poolA (zero_price_scenario 10))) = true /\
  same_address (token0 (poolA (zero_price_scenario 10)))
               (tokenIn (zero_price_scenario 10)) = false /\
  r_finalAmount (simulateDirection (zero_price_scenario 10)) = infinity /\
  r_profit (simulateDirection (zero_price_scenario 10)) = infinity /\
  r_finalAmount (simulateDirection (zero_price_scenario 0)) = nan /\
  r_profit (simulateDirection (zero_price_scenario 0)) = nan.
Proof. repeat split; vm_compute; reflexivity. Qed.

Lemma applySwapFee_nonfinite (amount fee : JS.number) :
  is_finite amount = false -> is_finite (applySwapFee amount fee) = false.
Proof. intros Hx. unfold applySwapFee. cbn [mul sub one binary64]. now apply mul_nonfinite_l. Qed.

(** C5 (amended): [simulateDirection] has no zero-price check and no error
    path.  Whenever a pool price is zero and that pool's swap divides by
    it, the division is carried out in binary64 and the non-finite
    quotient flows on: the returned final amount and profit are each an
    infinity or NaN. *)
Theorem zero_price_division_is_not_signalled (i : DirectionInput JS.number) :
  (is_zero (price (poolA i)) = true /\
   same_address (token0 (poolA i)) (tokenIn i) = false) \/
  (is_zero (price (poolB i)) = true /\
   same_address (token0 (poolB i)) (tokenOut i) = true) ->
  is_finite (r_finalAmount (simulateDirection i)) = false /\
  is_finite (r_profit (simulateDirection i)) = false.
Proof.
  intros Hzero.
  assert (Hfinal : is_finite (r_finalAmount (simulateDirection i)) = false).
  { unfold simulateDirection. cbn [r_finalAmount].
    cbn [mul div sub binary64].
    apply sub_nonfinite_l.
    destruct Hzero as [[Hz Hbranch] | [Hz Hbranch]].
    - rewrite Hbranch.
      assert (Hbridge :
        is_finite (applySwapFee (startAmount i / price (poolA i))%float (swapFeeA i)
                   - bridgeCostA i)%float = false).
      { apply sub_nonfinite_l, applySwapFee_nonfinite.
        now apply div_by_zero_nonfinite. }
      destruct (same_address (token0 (poolB i)) (tokenOut i));
        apply applySwapFee_nonfinite;
        [ now apply div_nonfinite_l | now apply mul_nonfinite_l ].
    - rewrite Hbranch. apply applySwapFee_nonfinite.
      now apply div_by_zero_nonfinite. }
  split; [exact Hfinal|].
  unfold simulateDirection in *. cbn [r_finalAmount r_profit] in *.
  cbn [sub binary64]. now apply sub_nonfinite_l.
Qed.

Lemma zero_price_division_is_not_signalled_witness :
  is_finite (r_finalAmount (simulateDirection (zero_price_scenario 10))) = false /\
  is_finite (r_profit (simulateDirection (zero_price_scenario 10))) = false.
Proof.
  apply (zero_price_division_is_not_signalled (zero_price_scenario 10)).
  left. split; vm_compute; reflexivity.
Defined.

(** *** Reciprocal prices *)




Example opposite_scenario_binary64 :
  r_profit (simulateDirection (opposite_scenario 0 10 2 0.5)%float) = 0%float.
Proof. vm_compute. reflexivity. Qed.

(** ** The sqrt-price converter *)

Lemma getPrice_nonnegative_exponent (sqrtPriceX96 d0 d1 : Z) :
  d1 <= d0 ->
  getPriceFromSqrtPriceX96BigInt sqrtPriceX96 d0 d1
  = inr (JS.Number_of_bigint (sqrtPriceX96 ^ 2 * 10 ^ (d0 - d1))
         / JS.Number_of_bigint (2 ^ 192))%float.
Proof.
  intros Hd. unfold getPriceFromSqrtPriceX96BigInt, JS.BigInt_pow.
  replace (2 <? 0) with false by reflexivity.
  replace (d0 - d1 <? 0) with false by (symmetry; apply Z.ltb_ge; lia).
  reflexivity.
Qed.

(** C4, where the code departs from it: for every sqrt price and
    every pair of decimal counts with [decimalsToken0 < decimalsToken1],
    the converter throws the RangeError of [10n ** BigInt(negative)]
    instead of returning a value. *)
Theorem getPrice_negative_exponent_throws (sqrtPriceX96 d0 d1 : Z) :
  d0 < d1 ->
  getPriceFromSqrtPriceX96BigInt sqrtPriceX96 d0 d1
  = inl (RangeError "Exponent must be non-negative").
Proof.
  intros Hd. unfold getPriceFromSqrtPriceX96BigInt, JS.BigInt_pow.
  replace (2 <? 0) with false by reflexivity.
  replace (d0 - d1 <? 0) with true by (symmetry; apply Z.ltb_lt; lia).
  reflexivity.
Qed.

Lemma getPrice_negative_exponent_throws_witness :
  getPriceFromSqrtPriceX96BigInt (2 ^ 96) 6 18
  = inl (RangeError "Exponent must be non-negative").
Proof. apply (getPrice_negative_exponent_throws (2 ^ 96) 6 18). lia. Defined.

(** C7: for every decimal count [d], the converter applied to the sqrt
    price 2^96 with decimals [(d, d)] returns exactly 1, which is within
    1e-6 of 1. *)
Theorem getPrice_unit_pool (d : Z) :
  exists p : JS.number,
    getPriceFromSqrtPriceX96BigInt (2 ^ 96) d d = inr p /\
    p = 1%float /\
    (abs (p - 1) <=? 1e-6)%float = true.
Proof.
  exists 1%float. split; [|split; [reflexivity | vm_compute; reflexivity]].
  rewrite getPrice_nonnegative_exponent by lia.
  rewrite Z.sub_diag. vm_compute. reflexivity.
Qed.

(** ** Traces of monadic code *)

Section Appends.
Variable P : Event -> bool.

Lemma appends_ret {A : Type} (a : A) : appends P (ret a).
Proof. intros w. exists []. simpl. now rewrite app_nil_r. Qed.


Lemma appends_lift {A : Type} (c : Exc A) : appends P (lift c).
Proof. intros w. exists []. simpl. now rewrite app_nil_r. Qed.

Lemma appends_emit (ev : Event) : P ev = true -> appends P (emit ev).
Proof. intros Hev w. exists [ev]. simpl. now rewrite Hev. Qed.

Lemma appends_bind {A B : Type} (m : M A) (k : A -> M B) :
  appends P m -> (forall a, appends P (k a)) -> appends P (bind m k).
Proof.
  intros Hm Hk w. unfold bind.
  destruct (Hm w) as [evs [Hw Hevs]].
  destruct (m w) as [[e | a] w1]; simpl in Hw; subst w1.
  - now exists evs.
  - destruct (Hk a (w ++ evs)) as [evs' [Hw' Hevs']].
    exists (evs ++ evs'). rewrite app_assoc, forallb_app, Hevs, Hevs'.
    now split.
Qed.

Lemma appends_catch {A : Type} (m : M A) (h : JsError -> M A) :
  appends P m -> (forall e, appends P (h e)) -> appends P (catch m h).
Proof.
  intros Hm Hh w. unfold catch.
  destruct (Hm w) as [evs [Hw Hevs]].
  destruct (m w) as [[e | a] w1]; simpl in Hw; subst w1.
  - destruct (Hh e (w ++ evs)) as [evs' [Hw' Hevs']].
    exists (evs ++ evs'). rewrite app_assoc, forallb_app, Hevs, Hevs'.
    now split.
  - now exists evs.
Qed.

Lemma appends_never {A : Type} (m : M Empty_set) :
  appends P m -> appends P (@never A m).
Proof. intros Hm. apply appends_bind; [exact Hm | intros []]. Qed.

Hypothesis P_retry : forall n e, P (EvRetryFailed n e) = true.
Hypothesis P_sleep : forall ms, P (EvSleep ms) = true.

Lemma appends_retry_loop {A : Type} (fn : M A) (maxRetries baseDelay : Z) :
  appends P fn ->
  forall fuel attempt w r,
    retry_loop fuel fn maxRetries baseDelay attempt w = Some r ->
    exists evs, snd r = w ++ evs /\ forallb P evs = true.
Proof.
  intros Hfn. induction fuel as [|fuel IH]; intros attempt w r Hr.
  - discriminate.
  - simpl in Hr. destruct (Hfn w) as [evs [Hw Hevs]].
    destruct (fn w) as [[e | a] w1]; simpl in Hw; subst w1.
    + destruct (attempt + 1 >? maxRetries).
      * injection Hr as <-. simpl.
        exists (evs ++ [EvRetryFailed (attempt + 1) e]).
        rewrite app_assoc, forallb_app, Hevs. simpl. now rewrite P_retry.
      * apply IH in Hr. destruct Hr as [evs' [Hw' Hevs']].
        exists (evs ++ [EvRetryFailed (attempt + 1) e;
                        EvSleep (baseDelay * 2 ^ (attempt + 1 - 1))] ++ evs').
        rewrite Hw'. split.
        -- now rewrite <- !app_assoc.
        -- rewrite !forallb_app, Hevs, Hevs'. simpl.
           now rewrite P_retry, P_sleep.
    + injection Hr as <-. now exists evs.
Qed.

Lemma appends_retryAsync {A : Type} (fn : M A) (maxRetries baseDelay : Z) :
  appends P fn -> appends P (retryAsync fn maxRetries baseDelay).
Proof.
  intros Hfn w. unfold retryAsync.
  destruct (retry_loop _ fn maxRetries baseDelay 0 w) as [r|] eqn:Hr.
  - eapply appends_retry_loop; eauto.
  - exists []. simpl. now rewrite app_nil_r.
Qed.

End Appends.

Lemma executions_app (w1 w2 : Trace) :
  executions (w1 ++ w2) = executions w1 ++ executions w2.
Proof.
  induction w1 as [|ev w1 IH]; [reflexivity|].
  destruct ev; simpl; now rewrite IH.
Qed.

Lemma live_attempts_none (evs : Trace) :
  forallb is_simulated evs = true -> live_attempts evs = [].
Proof.
  induction evs as [|ev evs IH]; [reflexivity|].
  destruct ev; simpl; intros Hall; try discriminate; now apply IH.
Qed.

(** ** The retry helper *)

(** The unrolled loop always leaves through [return] or [throw] once the
    fuel exceeds the retries that remain. *)
Lemma retry_loop_terminates {A : Type} (fn : M A) (maxRetries baseDelay : Z) :
  forall (fuel : nat) (attempt : Z) (w : Trace),
    (Z.to_nat (maxRetries - attempt) < fuel)%nat ->
    retry_loop fuel fn maxRetries baseDelay attempt w <> None.
Proof.
  induction fuel as [|fuel IH]; intros attempt w Hfuel; [lia|].
  simpl. destruct (fn w) as [[e | a] w1]; [|discriminate].
  destruct (attempt + 1 >? maxRetries) eqn:Hgt; [discriminate|].
  apply IH. rewrite Z.gtb_ltb in Hgt. apply Z.ltb_ge in Hgt. lia.
Qed.

Lemma retryAsync_runs_the_loop {A : Type} (fn : M A) (maxRetries baseDelay : Z)
    (w : Trace) :
  retry_loop (S (Z.to_nat maxRetries)) fn maxRetries baseDelay 0 w
  = Some (retryAsync fn maxRetries baseDelay w).
Proof.
  unfold retryAsync.
  destruct (retry_loop _ fn maxRetries baseDelay 0 w) eqn:Hr; [reflexivity|].
  exfalso. revert Hr. apply retry_loop_terminates. rewrite Z.sub_0_r. lia.
Qed.

(** Four failures in a row, with any fuel of at least four rounds. *)
Lemma retry_loop_exhaustion {A : Type} (fn : M A) (w : Trace)
    (e1 e2 e3 e4 : JsError) (w1 w2 w3 w4 : Trace) (fuel : nat) :
  fn w = (inl e1, w1) ->
  fn (w1 ++ [EvRetryFailed 1 e1; EvSleep 1000]) = (inl e2, w2) ->
  fn (w2 ++ [EvRetryFailed 2 e2; EvSleep 2000]) = (inl e3, w3) ->
  fn (w3 ++ [EvRetryFailed 3 e3; EvSleep 4000]) = (inl e4, w4) ->
  retry_loop (4 + fuel) fn 3 1000 0 w = Some (inl e4, w4 ++ [EvRetryFailed 4 e4]).
Proof.
  intros H1 H2 H3 H4. cbn [retry_loop Nat.add].
  rewrite H1. cbn -[retry_loop]. rewrite <- app_assoc. cbn [app retry_loop].
  rewrite H2. cbn -[retry_loop]. rewrite <- app_assoc. cbn [app retry_loop].
  rewrite H3. cbn -[retry_loop]. rewrite <- app_assoc. cbn [app retry_loop].
  rewrite H4. reflexivity.
Qed.

Lemma stub_body_always_fails (c : Collaborator) (msg : string) :
  always_fails (stub_body c msg).
Proof. intros w. now exists (Error msg), (w ++ [EvLiveAttempt c]). Qed.

Lemma notImplemented_run (c : Collaborator) (msg : string) (w : Trace) :
  notImplemented c msg w = (inl (Error msg), w ++ exhausted c msg).
Proof.
  unfold notImplemented, retryAsync.
  change (S (Z.to_nat 3)) with 4%nat. cbn. now rewrite <- !app_assoc.
Qed.

(** C2 fails as stated: a live operation that keeps failing runs its
    underlying call four times, not three. *)
Lemma realSwap_attempts_four_times :
  live_attempts (snd (realSwap USDC USDT 10000000 0 0.001 "Avalanche" []))
  = [RealSwap; RealSwap; RealSwap; RealSwap] /\
  List.length
    (live_attempts (snd (realSwap USDC USDT 10000000 0 0.001 "Avalanche" [])))
  <> 3%nat.
Proof. split; [vm_compute; reflexivity | vm_compute; discriminate]. Qed.

(** C2 (amended): when the wrapped call keeps failing, [retryAsync] with
    its defaults runs it exactly four times (the first attempt and
    [maxRetries = 3] retries), sleeps 1000, 2000 and 4000 ms between
    consecutive attempts, and after the fourth failure re-raises that last
    error; any fuel of four rounds or more unrolls the loop to that
    result.  [realSwap], [realCcipBridge] and [realStargateBridge] are
    such calls: each leaves four attempts and the three sleeps on the
    trace and fails with its own "not implemented" error. *)
Theorem retry_exhausts_after_four_attempts :
  (forall (A : Type) (fn : M A) (w : Trace),
      always_fails fn ->
      exists e1 w1 e2 w2 e3 w3 e4 w4,
        fn w = (inl e1, w1) /\
        fn (w1 ++ [EvRetryFailed 1 e1; EvSleep 1000]) = (inl e2, w2) /\
        fn (w2 ++ [EvRetryFailed 2 e2; EvSleep 2000]) = (inl e3, w3) /\
        fn (w3 ++ [EvRetryFailed 3 e3; EvSleep 4000]) = (inl e4, w4) /\
        retryAsync fn 3 1000 w = (inl e4, w4 ++ [EvRetryFailed 4 e4]) /\
        forall fuel : nat,
          retry_loop (4 + fuel) fn 3 1000 0 w
          = Some (inl e4, w4 ++ [EvRetryFailed 4 e4])) /\
  (forall (w : Trace) from to amountIn minOut slippage chain,
      realSwap from to amountIn minOut slippage chain w
      = (inl (Error "realSwap not implemented"),
         w ++ exhausted RealSwap "realSwap not implemented")) /\
  (forall (w : Trace) fromChain toChain amount token,
      realCcipBridge fromChain toChain amount token w
      = (inl (Error "realCcipBridge not implemented"),
         w ++ exhausted RealCcipBridge "realCcipBridge not implemented")) /\
  (forall (w : Trace) fromChain toChain amount token,
      realStargateBridge fromChain toChain amount token w
      = (inl (Error "realStargateBridge not implemented"),
         w ++ exhausted RealStargateBridge "realStargateBridge not implemented")) /\
  (forall c msg,
      live_attempts (exhausted c msg) = [c; c; c; c] /\
      sleeps (exhausted c msg) = [1000; 2000; 4000]).
Proof.
  split; [|repeat split; intros; apply notImplemented_run].
  intros A fn w Hfail.
  destruct (Hfail w) as [e1 [w1 H1]].
  destruct (Hfail (w1 ++ [EvRetryFailed 1 e1; EvSleep 1000])) as [e2 [w2 H2]].
  destruct (Hfail (w2 ++ [EvRetryFailed 2 e2; EvSleep 2000])) as [e3 [w3 H3]].
  destruct (Hfail (w3 ++ [EvRetryFailed 3 e3; EvSleep 4000])) as [e4 [w4 H4]].
  exists e1, w1, e2, w2, e3, w3, e4, w4.
  repeat (split; [assumption|]).
  split.
  - pose proof (retryAsync_runs_the_loop fn 3 1000 w) as Hrun.
    change (S (Z.to_nat 3)) with (4 + 0)%nat in Hrun.
    rewrite (retry_loop_exhaustion fn w e1 e2 e3 e4 w1 w2 w3 w4 0 H1 H2 H3 H4) in Hrun.
    now injection Hrun.
  - intros fuel. now apply retry_loop_exhaustion with e1 e2 e3 w1 w2 w3.
Qed.

Lemma retry_exhausts_after_four_attempts_witness :
  exists e4 w4,
    retryAsync (stub_body RealSwap "realSwap not implemented") 3 1000 []
    = (inl e4, w4 ++ [EvRetryFailed 4 e4]).
Proof.
  destruct retry_exhausts_after_four_attempts as [Hgeneral _].
  destruct (Hgeneral Empty_set (stub_body RealSwap "realSwap not implemented") []
              (stub_body_always_fails RealSwap "realSwap not implemented"))
    as [e1 [w1 [e2 [w2 [e3 [w3 [e4 [w4 [_ [_ [_ [_ [Hrun _]]]]]]]]]]]]].
  exists e4, w4. exact Hrun.
Defined.

(** ** Mock handlers *)

Lemma mockSwap_appends (P : Event -> bool) dex chain fromToken toToken
    amountIn price fee simulatedSlippage :
  (forall ev, mock_event ev = true -> P ev = true) ->
  appends P (mockSwap dex chain fromToken toToken amountIn price fee
                      simulatedSlippage).
Proof.
  intros HP. unfold mockSwap.
  apply appends_bind; [apply appends_lift|].
  intros [[afterFee slippage] out].
  apply appends_bind; [|intros; apply appends_ret].
  apply appends_emit, HP. reflexivity.
Qed.

Lemma mockBridge_appends (P : Event -> bool) b delay fromChain toChain amount
    token simulatedCost simulatedDelay :
  (forall ev, mock_event ev = true -> P ev = true) ->
  appends P (mockBridge b delay fromChain toChain amount token simulatedCost
                        simulatedDelay).
Proof.
  intros HP. unfold mockBridge, sleep.
  repeat (apply appends_bind; [apply appends_emit, HP; reflexivity | intros _]).
  apply appends_ret.
Qed.

(** The mock bridges never fail. *)
Lemma mockBridge_returns b delay fromChain toChain amount token w :
  fst (mockBridge b delay fromChain toChain amount token None None w)
  = inr (amount - 0.1)%float.
Proof. reflexivity. Qed.

(** The mock swap fails exactly when its fixed-point arithmetic throws. *)
Lemma mockSwap_result dex chain fromToken toToken amountIn price fee w :
  fst (mockSwap dex chain fromToken toToken amountIn price fee None w)
  = try amounts <- mockSwap_amounts fromToken toToken amountIn price fee 0.0005%float;
    inr (bnToNum (snd amounts) 6).
Proof.
  unfold mockSwap, bind, lift. cbn [or_default].
  destruct (mockSwap_amounts _ _ _ _ _ _) as [e | [[afterFee slippage] out]];
    reflexivity.
Qed.

(** A mock swap can only fail on a number that [parseUnits] rejects, or
    on the division by a price that is zero in fixed point. *)
Lemma mockSwap_amounts_failure fromToken toToken amountIn price fee slippage e :
  mockSwap_amounts fromToken toToken amountIn price fee slippage = inl e ->
  bn amountIn 6 = inl e \/ bn price 6 = inl e \/ bn (1 - fee)%float 6 = inl e \/
  bn slippage 6 = inl e \/
  (e = RangeError "Division by zero" /\ bn price 6 = inr 0 /\
   same_address fromToken toToken = false /\ same_address fromToken USDC = false).
Proof.
  unfold mockSwap_amounts.
  destruct (bn amountIn 6) as [e1 | a]; cbn [exc_bind]; [intros [= <-]; auto|].
  destruct (bn price 6) as [e2 | p]; cbn [exc_bind]; [intros [= <-]; auto|].
  rewrite !bnMul_6, bnDiv_6.
  destruct (bn (1 - fee)%float 6) as [e3 | f] eqn:Hf.
  - destruct (same_address fromToken toToken); cbn [exc_bind];
      [intros [= <-]; auto|].
    destruct (same_address fromToken USDC); cbn [exc_bind];
      [intros [= <-]; auto|].
    unfold JS.BigInt_div. destruct (p =? 0) eqn:Hp; cbn [exc_bind].
    + apply Z.eqb_eq in Hp. subst p. intros [= <-]. do 4 right. auto.
    + intros [= <-]; auto.
  - destruct (bn slippage 6) as [e4 | s] eqn:Hs.
    + destruct (same_address fromToken toToken); cbn [exc_bind].
      { rewrite !bnMul_6. cbn [exc_bind]. intros [= <-]; auto. }
      destruct (same_address fromToken USDC); cbn [exc_bind].
      { rewrite !bnMul_6. cbn [exc_bind]. intros [= <-]; auto. }
      unfold JS.BigInt_div. destruct (p =? 0) eqn:Hp; cbn [exc_bind].
      * apply Z.eqb_eq in Hp. subst p. intros [= <-]. do 4 right. auto.
      * rewrite !bnMul_6. cbn [exc_bind]. intros [= <-]; auto.
    + destruct (same_address fromToken toToken); cbn [exc_bind].
      { rewrite !bnMul_6. cbn [exc_bind]. rewrite bnMul_6. discriminate. }
      destruct (same_address fromToken USDC); cbn [exc_bind].
      { rewrite !bnMul_6. cbn [exc_bind]. rewrite bnMul_6. discriminate. }
      unfold JS.BigInt_div. destruct (p =? 0) eqn:Hp; cbn [exc_bind].
      * apply Z.eqb_eq in Hp. subst p. intros [= <-]. do 4 right. auto.
      * rewrite !bnMul_6. cbn [exc_bind]. rewrite bnMul_6. discriminate.
Qed.

(** C10: when [fromToken] and [toToken] are the same address up to case,
    [mockSwap] neither multiplies nor divides by the price: with [a], [f]
    and [s] the 6-decimal fixed-point values of the input amount, of
    [1 - fee] and of the slippage fraction, the amount after the fee is
    [a * f / 10^6], the slippage is that amount times [s / 10^6], and the
    returned [amountOut] is their difference converted back to a number;
    the price only has to convert. *)
Theorem mockSwap_same_token dex chain fromToken toToken amountIn price fee
    simulatedSlippage (w : Trace) (a p f s : Z) :
  same_address fromToken toToken = true ->
  bn amountIn 6 = inr a ->
  bn price 6 = inr p ->
  bn (1 - fee)%float 6 = inr f ->
  bn (or_default simulatedSlippage 0.0005%float) 6 = inr s ->
  let afterFee := Z.quot (a * f) 1000000 in
  let slippage := Z.quot (afterFee * s) 1000000 in
  mockSwap_amounts fromToken toToken amountIn price fee
                   (or_default simulatedSlippage 0.0005%float)
  = inr (afterFee, slippage, afterFee - slippage) /\
  mockSwap dex chain fromToken toToken amountIn price fee simulatedSlippage w
  = (inr (bnToNum (afterFee - slippage) 6),
     w ++ [EvMockSwap dex chain fromToken toToken amountIn
             (bnToNum afterFee 6) (bnToNum slippage 6)
             (bnToNum (afterFee - slippage) 6)]).
Proof.
  intros Hsame Ha Hp Hf Hs afterFee slippage.
  assert (Hamounts :
    mockSwap_amounts fromToken toToken amountIn price fee
                     (or_default simulatedSlippage 0.0005%float)
    = inr (afterFee, slippage, afterFee - slippage)).
  { unfold mockSwap_amounts.
    rewrite Ha, Hp, Hsame, Hf, Hs. cbn [exc_bind].
    rewrite bnMul_6. cbn [exc_bind]. rewrite bnMul_6. reflexivity. }
  split; [exact Hamounts|].
  unfold mockSwap, bind, lift. cbv zeta. rewrite Hamounts. reflexivity.
Qed.

Lemma mockSwap_same_token_witness :
  mockSwap_amounts USDC (JS.toLowerCase USDC) 10 1.02 0.00005 0.0005
  = inr (9999500, 4999, 9994501) /\
  mockSwap "Pharaoh" "Avalanche" USDC (JS.toLowerCase USDC) 10 1.02 0.00005 None []
  = (inr 9.994501%float,
     [EvMockSwap "Pharaoh" "Avalanche" USDC (JS.toLowerCase USDC) 10
                 9.9995 0.004999 9.994501]).
Proof.
  apply (mockSwap_same_token "Pharaoh" "Avalanche" USDC (JS.toLowerCase USDC)
           10 1.02 0.00005 None [] 10000000 1020000 999950 500);
    vm_compute; reflexivity.
Defined.

(** ** The execution pipeline *)

Lemma mock_event_is_simulated ev : mock_event ev = true -> is_simulated ev = true.
Proof. destruct ev; simpl; congruence. Qed.

Lemma mock_event_is_stage ev : mock_event ev = true -> stage_event ev = true.
Proof. destruct ev; simpl; congruence. Qed.

Lemma notImplemented_appends (P : Event -> bool) c msg :
  forallb P (exhausted c msg) = true -> appends P (notImplemented c msg).
Proof.
  intros HP w. exists (exhausted c msg). now rewrite notImplemented_run.
Qed.

Ltac trace_step HP :=
  first
    [ apply appends_ret
    | apply appends_lift
    | apply appends_emit; reflexivity
    | apply mockSwap_appends; exact HP
    | apply mockBridge_appends; exact HP
    | apply appends_never, notImplemented_appends; reflexivity
    | apply appends_bind; [|intros ?] ].

Lemma runStages_appends_stage cfg d pharaoh shadow :
  appends stage_event (runStages cfg d pharaoh shadow).
Proof.
  unfold runStages, mockCcipBridge, mockStargateBridge,
    realSwap, realCcipBridge, realStargateBridge.
  destruct (LIVE_MODE cfg), d; cbn [negb];
    repeat trace_step mock_event_is_stage.
Qed.

Lemma runStages_appends_simulated cfg d pharaoh shadow :
  LIVE_MODE cfg = false ->
  appends is_simulated (runStages cfg d pharaoh shadow).
Proof.
  intros Hsim.
  unfold runStages, mockCcipBridge, mockStargateBridge. rewrite Hsim.
  destruct d; cbn [negb]; repeat trace_step mock_event_is_simulated.
Qed.

Lemma stage_events_execute_nothing evs :
  forallb stage_event evs = true ->
  executions evs = [] /\ no_opportunity_reported evs = false.
Proof.
  induction evs as [|ev evs IH]; [now split|].
  destruct ev; simpl; intros Hall; try discriminate; now apply IH.
Qed.

Lemma simulateExecution_trace cfg d pharaoh shadow w :
  exists evs,
    snd (simulateExecution cfg d pharaoh shadow w) = w ++ EvExecute d :: evs /\
    forallb stage_event evs = true.
Proof.
  unfold simulateExecution, bind, emit.
  destruct (runStages_appends_stage cfg d pharaoh shadow (w ++ [EvExecute d]))
    as [evs [Hw Hevs]].
  exists evs. rewrite Hw, <- app_assoc. now split.
Qed.

Lemma simulated_outcome_spec cfg d pharaoh shadow w :
  LIVE_MODE cfg = false ->
  fst (simulateExecution cfg d pharaoh shadow w)
  = simulated_outcome cfg d pharaoh shadow.
Proof.
  intros Hsim.
  unfold simulateExecution, runStages, simulated_outcome, first_leg.
  rewrite Hsim.
  unfold mockCcipBridge, mockStargateBridge, mockBridge, mockSwap, sleep.
  cbv beta iota zeta delta [bind emit ret lift negb or_default fst snd exc_bind].
  destruct d;
    (destruct (mockSwap_amounts _ _ (START_USDC cfg) _ _ _)
       as [e1 | [[afterFee1 slippage1] out1]]; [reflexivity|]);
    cbv beta iota;
    (destruct (mockSwap_amounts _ _ _ (price shadow) _ _)
       as [e2 | [[afterFee2 slippage2] out2]]; reflexivity).
Qed.

(** C6 fails as stated: with [LIVE_MODE] false, executing direction USDT
    over a Pharaoh quote of price 0 runs only the mock swap, and that
    swap throws the RangeError of a bigint division by zero. *)
Lemma simulated_run_can_fail :
  LIVE_MODE default_config = false /\
  simulateExecution default_config DirUSDT zero_quote unit_quote []
  = (inl (RangeError "Division by zero"), [EvExecute DirUSDT; EvDryRun]).
Proof. split; vm_compute; reflexivity. Qed.

(** C6 (amended): with [LIVE_MODE] false, for every direction, quotes and
    configuration, the pipeline records simulated events only: no live
    collaborator is attempted and the retry helper reports nothing; the
    mock bridges cannot fail, and the run fails exactly when the
    fixed-point arithmetic of one of its two mock swaps throws, with that
    error (see [mockSwap_amounts_failure] for when it does). *)
Theorem simulated_mode_uses_mocks_only cfg d pharaoh shadow (w : Trace) :
  LIVE_MODE cfg = false ->
  (exists evs,
      snd (simulateExecution cfg d pharaoh shadow w) = w ++ evs /\
      forallb is_simulated evs = true /\
      live_attempts evs = []) /\
  fst (simulateExecution cfg d pharaoh shadow w)
  = simulated_outcome cfg d pharaoh shadow.
Proof.
  intros Hsim. split; [|now apply simulated_outcome_spec].
  assert (Happ : appends is_simulated (simulateExecution cfg d pharaoh shadow)).
  { unfold simulateExecution.
    apply appends_bind; [now apply appends_emit|].
    intros _. now apply runStages_appends_simulated. }
  destruct (Happ w) as [evs [Hw Hevs]].
  exists evs. repeat split; [assumption.. | now apply live_attempts_none].
Qed.

Lemma simulated_mode_uses_mocks_only_witness :
  (exists evs,
      snd (simulateExecution default_config DirUSDC unit_quote unit_quote [])
      = [] ++ evs /\
      forallb is_simulated evs = true /\
      live_attempts evs = []) /\
  fst (simulateExecution default_config DirUSDC unit_quote unit_quote [])
  = simulated_outcome default_config DirUSDC unit_quote unit_quote.
Proof.
  apply (simulated_mode_uses_mocks_only default_config DirUSDC unit_quote
           unit_quote []).
  reflexivity.
Defined.

Example live_run_fails_after_four_attempts :
  simulateExecution (with_live_mode true default_config) DirUSDC
                    unit_quote unit_quote []
  = (inl (Error "realSwap not implemented"),
     EvExecute DirUSDC :: exhausted RealSwap "realSwap not implemented").
Proof. vm_compute. reflexivity. Qed.

Example simulated_run_completes :
  fst (simulateExecution default_config DirUSDC unit_quote unit_quote [])
  = inr tt.
Proof. vm_compute. reflexivity. Qed.

(** ** The opportunity evaluator *)

Lemma executions_stage_suffix evs tail :
  forallb stage_event evs = true ->
  executions tail = [] ->
  no_opportunity_reported tail = false ->
  executions (evs ++ tail) = [] /\ no_opportunity_reported (evs ++ tail) = false.
Proof.
  intros Hevs Htail Hno.
  destruct (stage_events_execute_nothing evs Hevs) as [Hex Hnone].
  split.
  - now rewrite executions_app, Hex, Htail.
  - unfold no_opportunity_reported in *. now rewrite existsb_app, Hnone, Hno.
Qed.

(** Handing a direction to the pipeline records that execution and no
    other, whether the pipeline then completes or fails. *)
Lemma execute_branch cfg d profit pharaoh shadow (w : Trace) :
  exists evs,
    snd (catch (emit (EvProfitable d profit) ;;;
                simulateExecution cfg d pharaoh shadow)
               (fun err => emit (EvCycleError err)) w)
    = w ++ evs /\
    executions evs = [d] /\
    no_opportunity_reported evs = false.
Proof.
  unfold catch. unfold bind at 1. unfold emit at 1.
  destruct (simulateExecution_trace cfg d pharaoh shadow
              (w ++ [EvProfitable d profit])) as [evs [Hw Hevs]].
  destruct (simulateExecution cfg d pharaoh shadow (w ++ [EvProfitable d profit]))
    as [[e | u] w1]; cbn [snd] in Hw; subst w1.
  - exists (EvProfitable d profit :: EvExecute d :: evs ++ [EvCycleError e]).
    destruct (executions_stage_suffix evs [EvCycleError e] Hevs eq_refl eq_refl)
      as [Hex Hno].
    unfold emit. cbn [snd]. repeat split.
    + rewrite <- !app_assoc. reflexivity.
    + cbn [executions]. now rewrite Hex.
    + unfold no_opportunity_reported in *. cbn [existsb orb]. exact Hno.
  - exists (EvProfitable d profit :: EvExecute d :: evs).
    destruct (stage_events_execute_nothing evs Hevs) as [Hex Hno].
    cbn [snd]. repeat split.
    + rewrite <- !app_assoc. reflexivity.
    + cbn [executions]. now rewrite Hex.
    + unfold no_opportunity_reported in *. cbn [existsb orb]. exact Hno.
Qed.

(** C3: once both quotes are read, a cycle simulates both directions
    and then selects in a fixed order: direction 1 is executed when its
    profit is strictly above the threshold (whatever direction 2 yields);
    otherwise direction 2 is executed when its profit is strictly above
    the threshold; otherwise nothing is executed and "no opportunity" is
    reported.  At most one direction is executed, never both.  When a
    quote cannot be read, nothing is executed. *)
Theorem evaluator_selects_in_fixed_order cfg pharaohReply shadowReply (w : Trace) :
  match getPharaohPrice pharaohReply, getShadowPrice shadowReply with
  | inr pharaoh, inr shadow =>
      let dir1 := simulateDirection (direction1 cfg pharaoh shadow) in
      let dir2 := simulateDirection (direction2 cfg pharaoh shadow) in
      exists evs,
        snd (simulateArbitrage cfg pharaohReply shadowReply w)
        = w ++ [EvSimulated (r_directionLabel dir1) (r_finalAmount dir1)
                            (r_profit dir1);
                EvSimulated (r_directionLabel dir2) (r_finalAmount dir2)
                            (r_profit dir2)]
            ++ evs /\
        executions evs
        = (if gt (r_profit dir1) (PROFIT_THRESHOLD cfg) then [DirUSDC]
           else if gt (r_profit dir2) (PROFIT_THRESHOLD cfg) then [DirUSDT]
           else []) /\
        (List.length (executions evs) <= 1)%nat /\
        no_opportunity_reported evs
        = negb (gt (r_profit dir1) (PROFIT_THRESHOLD cfg)
                || gt (r_profit dir2) (PROFIT_THRESHOLD cfg))
  | _, _ =>
      executions (snd (simulateArbitrage cfg pharaohReply shadowReply w))
      = executions w
  end.
Proof.
  unfold simulateArbitrage.
  destruct (getPharaohPrice pharaohReply) as [e | pharaoh].
  { unfold catch, bind, lift, emit. cbn [snd]. rewrite executions_app.
    apply app_nil_r. }
  destruct (getShadowPrice shadowReply) as [e | shadow].
  { unfold catch, bind, lift, emit. cbn [snd]. rewrite executions_app.
    apply app_nil_r. }
  unfold catch, logResult.
  unfold bind at 1 2 3 4. unfold lift, emit at 1 2. cbv beta zeta.
  set (dir1 := simulateDirection (direction1 cfg pharaoh shadow)).
  set (dir2 := simulateDirection (direction2 cfg pharaoh shadow)).
  set (w0 := (w ++ [_]) ++ [_]).
  destruct (gt (r_profit dir1) (PROFIT_THRESHOLD cfg)).
  - destruct (execute_branch cfg DirUSDC (r_profit dir1) pharaoh shadow w0)
      as [evs [Hw [Hex Hno]]].
    unfold catch in Hw. exists evs. rewrite Hw, Hex, Hno. subst w0.
    rewrite <- !app_assoc. repeat split. cbn. lia.
  - destruct (gt (r_profit dir2) (PROFIT_THRESHOLD cfg)).
    + destruct (execute_branch cfg DirUSDT (r_profit dir2) pharaoh shadow w0)
        as [evs [Hw [Hex Hno]]].
      unfold catch in Hw. exists evs. rewrite Hw, Hex, Hno. subst w0.
      rewrite <- !app_assoc. repeat split. cbn. lia.
    + exists [EvNoOpportunity]. unfold emit. cbn [snd]. subst w0.
      rewrite <- !app_assoc. repeat split. cbn. lia.
Qed.


(** With the threshold lowered to -1 both directions exceed it, the second
    by more; the first is the one selected and executed. *)
Example first_direction_wins_over_higher_second :
  r_profit (simulateDirection
              (direction1 lenient_config (quote USDC USDT 0.99) (quote USDC USDT 1)))
    = (-0.30147495049999939)%float /\
  r_profit (simulateDirection
              (direction2 lenient_config (quote USDC USDT 0.99) (quote USDC USDT 1)))
    = (-0.10049500000000045)%float /\
  gt (-0.30147495049999939) (PROFIT_THRESHOLD lenient_config) = true /\
  executions (snd (simulateArbitrage lenient_config
                     (inr (reply USDC USDT (2 ^ 96)))
                     (inr (reply USDC USDT (2 ^ 96))) []))
    = [DirUSDC].
Proof. repeat split; vm_compute; reflexivity. Qed.

(** A whole dry-run cycle over a Shadow pool whose price reads 0: the
    first direction looks infinitely profitable, is executed, and its
    second mock swap divides by zero; the cycle logs the error. *)
Example zero_price_cycle :
  snd (simulateArbitrage default_config
         (inr (reply USDC USDT (2 ^ 96))) (inr (reply USDC USDT 0)) [])
  = [EvSimulated "USDC→USDT→USDC" infinity infinity;
     EvSimulated "USDT→USDC→USDT" (-0.1) (-10.1);
     EvProfitable DirUSDC infinity;
     EvExecute DirUSDC; EvDryRun;
     EvMockSwap "Pharaoh" "Avalanche" USDC USDT 10 9.9995 0.004999 9.994501;
     EvBridgeStart Stargate "Avalanche" "Sonic" USDT 9.994501;
     EvSleep 7000;
     EvBridgeDone Stargate "Sonic" 9.894501;
     EvCycleError (RangeError "Division by zero")].
Proof. vm_compute. reflexivity. Qed.

(** * Further properties *)

(** ** The retry helper, in general *)

Lemma retry_loop_first_success {A : Type} (fn : M A) (maxRetries baseDelay : Z)
    (a : A) (w' w'' : Trace) :
  fn w' = (inr a, w'') ->
  forall n attempt w fuel,
    failed_rounds fn baseDelay n attempt w w' ->
    attempt + Z.of_nat n <= maxRetries ->
    (n < fuel)%nat ->
    retry_loop fuel fn maxRetries baseDelay attempt w = Some (inr a, w'').
Proof.
  intros Hok n attempt w fuel Hrounds.
  revert fuel. induction Hrounds as [attempt w | n attempt w w1 w' e Hfail _ IH];
    intros fuel Hle Hfuel; (destruct fuel as [|fuel]; [lia|]); cbn [retry_loop].
  - now rewrite Hok.
  - rewrite Hfail.
    replace (attempt + 1 >? maxRetries) with false
      by (symmetry; rewrite Z.gtb_ltb; apply Z.ltb_ge; lia).
    rewrite <- app_assoc. cbn [app].
    replace (attempt + 1 - 1) with attempt by lia.
    apply IH; [exact Hok | lia | lia].
Qed.

(** X1: [retryAsync] returns the first success.  If the call fails [n]
    times in a row with [n <= maxRetries] and then succeeds, the helper
    returns that value, after exactly those [n] reports and backoff
    sleeps and nothing more. *)
Theorem retryAsync_returns_first_success {A : Type} (fn : M A)
    (maxRetries baseDelay : Z) (n : nat) (w w' w'' : Trace) (a : A) :
  failed_rounds fn baseDelay n 0 w w' ->
  Z.of_nat n <= maxRetries ->
  fn w' = (inr a, w'') ->
  retryAsync fn maxRetries baseDelay w = (inr a, w'').
Proof.
  intros Hrounds Hle Hok.
  pose proof (retryAsync_runs_the_loop fn maxRetries baseDelay w) as Hrun.
  rewrite (retry_loop_first_success fn maxRetries baseDelay a w' w'' Hok
             n 0 w (S (Z.to_nat maxRetries)) Hrounds) in Hrun by lia.
  now injection Hrun.
Qed.

Lemma retryAsync_returns_first_success_witness :
  retryAsync (flaky 2) 3 1000 []
  = (inr 2,
     [EvRetryFailed 1 (Error "not yet"); EvSleep 1000;
      EvRetryFailed 2 (Error "not yet"); EvSleep 2000]).
Proof.
  apply (retryAsync_returns_first_success (flaky 2) 3 1000 2 []
           [EvRetryFailed 1 (Error "not yet"); EvSleep 1000;
            EvRetryFailed 2 (Error "not yet"); EvSleep 2000]).
  - eapply rounds_more; [reflexivity|].
    eapply rounds_more; [reflexivity|].
    apply rounds_none.
  - lia.
  - reflexivity.
Defined.








Example backoff_of_five_retries :
  backoff 100 0 (Z.to_nat 5) = [100; 200; 400; 800; 1600] /\
  attempt_numbers 0 (Z.to_nat 5) = [1; 2; 3; 4; 5].
Proof. split; reflexivity. Qed.

(** ** Fixed-point helpers *)

(** X3: in 6-decimal fixed point [bn(1)] is 1000000 and is neutral for
    [bnMul] and [bnDiv]; [bnMul] never throws and truncates towards zero,
    so negating an operand negates the result and the result never
    exceeds the exact product in magnitude; [bnDiv] throws exactly when
    the divisor is zero. *)
Theorem fixed_point_unit_sign_and_zero (a b : Z) :
  bn 1 6 = inr 1000000 /\
  bnMul a 1000000 6 = inr a /\
  bnDiv a 1000000 6 = inr a /\
  (exists r, bnMul a b 6 = inr r /\ bnMul (- a) b 6 = inr (- r) /\
             1000000 * Z.abs r <= Z.abs (a * b)) /\
  (bnDiv a b 6 = inl (RangeError "Division by zero") <-> b = 0) /\
  (b <> 0 -> exists q, bnDiv a b 6 = inr q).
Proof.
  rewrite !bnMul_6, !bnDiv_6. unfold JS.BigInt_div.
  split; [vm_compute; reflexivity|].
  split; [now rewrite Z.quot_mul|].
  split; [cbn [Z.eqb]; now rewrite Z.quot_mul|].
  split.
  { exists (Z.quot (a * b) 1000000).
    split; [reflexivity|]. split.
    - now rewrite Z.mul_opp_l, Z.quot_opp_l.
    - rewrite <- Z.quot_abs by lia. change (Z.abs 1000000) with 1000000.
      apply Z.mul_quot_le; lia. }
  split; [split|].
  - destruct (b =? 0) eqn:Hb; [intros _; now apply Z.eqb_eq | discriminate].
  - intros ->. reflexivity.
  - intros Hb. apply Z.eqb_neq in Hb. rewrite Hb. eauto.
Qed.

(** X4: converting there and back never gains.  For a non-negative amount
    [a] and a positive price [p], dividing by the price and multiplying
    back gives [r] with [0 <= r <= a] and [a - r < p / 10^6 + 1];
    multiplying first and dividing back gives [r'] with [0 <= r' <= a]
    and [a - r' < 10^6 / p + 1]. *)
Theorem fixed_point_round_trips (a p : Z) :
  0 <= a -> 0 < p ->
  (exists q r,
      bnDiv a p 6 = inr q /\ bnMul q p 6 = inr r /\
      0 <= r <= a /\ 1000000 * (a - r) < p + 1000000) /\
  (exists m r',
      bnMul a p 6 = inr m /\ bnDiv m p 6 = inr r' /\
      0 <= r' <= a /\ p * (a - r') < 1000000 + p).
Proof.
  intros Ha Hp. rewrite !bnDiv_6, !bnMul_6. unfold JS.BigInt_div.
  replace (p =? 0) with false by (symmetry; apply Z.eqb_neq; lia).
  split.
  - exists (Z.quot (a * 1000000) p).
    exists (Z.quot (Z.quot (a * 1000000) p * p) 1000000).
    rewrite bnMul_6. split; [reflexivity|]. split; [reflexivity|].
    rewrite (Z.quot_div_nonneg (a * 1000000) p) by lia.
    assert (Hq : 0 <= a * 1000000 / p) by (apply Z.div_pos; lia).
    rewrite Z.quot_div_nonneg by lia.
    pose proof (Z.mul_div_le (a * 1000000) p Hp) as Hle.
    pose proof (Z.mul_succ_div_gt (a * 1000000) p Hp) as Hgt.
    set (q := a * 1000000 / p) in *.
    pose proof (Z.mul_div_le (q * p) 1000000 ltac:(lia)) as Hle2.
    pose proof (Z.mul_succ_div_gt (q * p) 1000000 ltac:(lia)) as Hgt2.
    assert (0 <= q * p / 1000000) by (apply Z.div_pos; lia).
    lia.
  - exists (Z.quot (a * p) 1000000).
    exists (Z.quot (Z.quot (a * p) 1000000 * 1000000) p).
    rewrite bnDiv_6. unfold JS.BigInt_div.
    replace (p =? 0) with false by (symmetry; apply Z.eqb_neq; lia).
    split; [reflexivity|]. split; [reflexivity|].
    rewrite (Z.quot_div_nonneg (a * p) 1000000) by lia.
    assert (Hm : 0 <= a * p / 1000000) by (apply Z.div_pos; lia).
    rewrite Z.quot_div_nonneg by lia.
    pose proof (Z.mul_div_le (a * p) 1000000 ltac:(lia)) as Hle.
    pose proof (Z.mul_succ_div_gt (a * p) 1000000 ltac:(lia)) as Hgt.
    set (m := a * p / 1000000) in *.
    pose proof (Z.mul_div_le (m * 1000000) p Hp) as Hle2.
    pose proof (Z.mul_succ_div_gt (m * 1000000) p Hp) as Hgt2.
    assert (0 <= m * 1000000 / p) by (apply Z.div_pos; lia).
    nia.
Qed.

Lemma fixed_point_round_trips_witness :
  (exists q r,
      bnDiv 10000000 990000 6 = inr q /\ bnMul q 990000 6 = inr r /\
      0 <= r <= 10000000 /\ 1000000 * (10000000 - r) < 990000 + 1000000) /\
  (exists m r',
      bnMul 10000000 990000 6 = inr m /\ bnDiv m 990000 6 = inr r' /\
      0 <= r' <= 10000000 /\ 990000 * (10000000 - r') < 1000000 + 990000).
Proof. apply (fixed_point_round_trips 10000000 990000); lia. Defined.

(** ** The mock swap, as an attenuation *)

Lemma quot_attenuates (x k : Z) :
  0 <= x -> 0 <= k <= 1000000 -> 0 <= Z.quot (x * k) 1000000 <= x.
Proof.
  intros Hx Hk. rewrite Z.quot_div_nonneg by nia. split.
  - apply Z.div_pos; nia.
  - apply Z.div_le_upper_bound; nia.
Qed.

Lemma preFee_nonneg fromToken toToken (a p : Z) :
  0 <= a -> 0 < p -> 0 <= preFee fromToken toToken a p.
Proof.
  intros Ha Hp. unfold preFee.
  destruct (same_address fromToken toToken); [assumption|].
  destruct (same_address fromToken USDC); apply Z.quot_pos; nia.
Qed.

(** X5: a mock swap only attenuates.  When the input amount is
    non-negative, the price positive, and the fee factor [1 - fee] and the
    slippage fraction lie in [0, 1] (all in 6-decimal fixed point), the
    swap does not throw, the slippage is between 0 and the amount after
    the fee, and the amount out is between 0 and the amount after the fee,
    which is itself at most the amount before the fee. *)
Theorem mockSwap_attenuates fromToken toToken amountIn price fee slippage
    (a p f s : Z) :
  bn amountIn 6 = inr a -> bn price 6 = inr p ->
  bn (1 - fee)%float 6 = inr f -> bn slippage 6 = inr s ->
  0 <= a -> 0 < p -> 0 <= f <= 1000000 -> 0 <= s <= 1000000 ->
  exists afterFee slip out,
    mockSwap_amounts fromToken toToken amountIn price fee slippage
    = inr (afterFee, slip, out) /\
    out = afterFee - slip /\
    0 <= slip <= afterFee /\
    0 <= out <= afterFee /\
    afterFee <= preFee fromToken toToken a p.
Proof.
  intros Ha Hp Hf Hs Ha0 Hp0 Hf01 Hs01.
  pose proof (preFee_nonneg fromToken toToken a p Ha0 Hp0) as Hpre.
  pose proof (quot_attenuates (preFee fromToken toToken a p) f Hpre Hf01) as Hafter.
  pose proof (quot_attenuates _ s (proj1 Hafter) Hs01) as Hslip.
  exists (Z.quot (preFee fromToken toToken a p * f) 1000000).
  exists (Z.quot (Z.quot (preFee fromToken toToken a p * f) 1000000 * s) 1000000).
  eexists. split; [|split; [reflexivity|lia]].
  unfold mockSwap_amounts, preFee. cbv zeta. rewrite Ha, Hp. cbn [exc_bind].
  rewrite (bnMul_6 a p), bnDiv_6. unfold JS.BigInt_div.
  replace (p =? 0) with false by (symmetry; apply Z.eqb_neq; lia).
  destruct (same_address fromToken toToken);
    [|destruct (same_address fromToken USDC)];
    cbn [exc_bind]; rewrite Hf; cbn [exc_bind];
    rewrite bnMul_6; cbn [exc_bind]; rewrite Hs; cbn [exc_bind];
    rewrite bnMul_6; reflexivity.
Qed.

Lemma mockSwap_attenuates_witness :
  exists afterFee slip out,
    mockSwap_amounts USDT USDC 9.894501 0.99 0.0001 0.0005
    = inr (afterFee, slip, out) /\
    out = afterFee - slip /\
    0 <= slip <= afterFee /\
    0 <= out <= afterFee /\
    afterFee <= preFee USDT USDC 9894501 990000.
Proof.
  apply (mockSwap_attenuates USDT USDC 9.894501 0.99 0.0001 0.0005
           9894501 990000 999900 500);
    first [ vm_compute; reflexivity | lia ].
Defined.

(** X6: a mock swap returns amounts exactly when the input amount, the
    price, the fee factor [1 - fee] and the slippage fraction all convert
    to fixed point and, if the swap divides by the price (different
    tokens, not selling USDC), the converted price is not zero. *)
Theorem mockSwap_succeeds_iff fromToken toToken amountIn price fee slippage :
  (exists r, mockSwap_amounts fromToken toToken amountIn price fee slippage = inr r)
  <->
  (exists a p f s,
      bn amountIn 6 = inr a /\ bn price 6 = inr p /\
      bn (1 - fee)%float 6 = inr f /\ bn slippage 6 = inr s /\
      (same_address fromToken toToken = false ->
       same_address fromToken USDC = false -> p <> 0)).
Proof.
  unfold mockSwap_amounts. cbv zeta. split.
  - intros [r Hr].
    destruct (bn amountIn 6) as [e1 | a]; [discriminate|].
    destruct (bn price 6) as [e2 | p]; [discriminate|].
    cbn [exc_bind] in Hr. rewrite (bnMul_6 a p), bnDiv_6 in Hr.
    unfold JS.BigInt_div in Hr.
    destruct (bn (1 - fee)%float 6) as [e3 | f].
    { destruct (same_address fromToken toToken);
        [|destruct (same_address fromToken USDC); [|destruct (p =? 0)]];
        discriminate. }
    destruct (bn slippage 6) as [e4 | s].
    { destruct (same_address fromToken toToken);
        [|destruct (same_address fromToken USDC); [|destruct (p =? 0)]];
        cbn [exc_bind] in Hr; try rewrite bnMul_6 in Hr; discriminate. }
    exists a, p, f, s. repeat (split; [reflexivity|]).
    intros Hsame Husdc ->. rewrite Hsame, Husdc in Hr. discriminate.
  - intros [a [p [f [s [Ha [Hp [Hf [Hs Hzero]]]]]]]].
    rewrite Ha, Hp. cbn [exc_bind]. rewrite (bnMul_6 a p), bnDiv_6.
    unfold JS.BigInt_div. rewrite Hf, Hs.
    destruct (same_address fromToken toToken);
      [|destruct (same_address fromToken USDC);
        [|replace (p =? 0) with false
            by (symmetry; apply Z.eqb_neq; now apply Hzero)]];
      cbn [exc_bind]; rewrite bnMul_6; cbn [exc_bind]; rewrite bnMul_6;
      cbn [exc_bind]; eauto.
Qed.

(** ** Addresses *)

Lemma lower_ascii_idempotent (c : ascii) :
  JS.lower_ascii (JS.lower_ascii c) = JS.lower_ascii c.
Proof.
  destruct c as [[] [] [] [] [] [] [] []]; vm_compute; reflexivity.
Qed.

Lemma toLowerCase_idempotent (s : string) :
  JS.toLowerCase (JS.toLowerCase s) = JS.toLowerCase s.
Proof.
  induction s as [|c s IH]; [reflexivity|].
  cbn [JS.toLowerCase]. now rewrite lower_ascii_idempotent, IH.
Qed.

Lemma same_address_lower (a b : string) :
  same_address a b = true <-> JS.toLowerCase a = JS.toLowerCase b.
Proof. unfold same_address. apply String.eqb_eq. Qed.

Lemma same_address_congruence (a b c : string) :
  same_address a b = true ->
  same_address a c = same_address b c /\ same_address c a = same_address c b.
Proof.
  intros Hab. apply same_address_lower in Hab.
  unfold same_address. now rewrite Hab.
Qed.

(** X7: the address comparison is an equivalence that ignores case, and
    [getSymbol] cannot tell equivalent addresses apart: an address is the
    same as its lower-cased form, the comparison is reflexive, symmetric
    and transitive, and equivalent addresses get the same symbol; no
    address is both USDC and USDT. *)
Theorem addresses_up_to_case (a b c : string) :
  same_address a (JS.toLowerCase a) = true /\
  same_address a a = true /\
  same_address a b = same_address b a /\
  (same_address a b = true -> same_address b c = true ->
   same_address a c = true) /\
  (same_address a b = true -> getSymbol a = getSymbol b) /\
  (same_address a USDC = true -> same_address a USDT = false).
Proof.
  split; [|split; [|split; [|split; [|split]]]].
  - apply same_address_lower. now rewrite toLowerCase_idempotent.
  - now apply same_address_lower.
  - unfold same_address. apply String.eqb_sym.
  - intros Hab Hbc.
    now rewrite (proj1 (same_address_congruence a b c Hab)).
  - intros Hab. unfold getSymbol.
    now rewrite (proj1 (same_address_congruence a b USDC Hab)),
                (proj1 (same_address_congruence a b USDT Hab)).
  - intros Hc. apply same_address_lower in Hc.
    unfold same_address. rewrite Hc. reflexivity.
Qed.

Lemma addresses_up_to_case_witness :
  getSymbol "0xB97EF9EF8734C71904D8002F8B6BC66DD9C48A6E" = getSymbol USDC /\
  same_address "0xB97EF9EF8734C71904D8002F8B6BC66DD9C48A6E" USDT = false.
Proof.
  destruct (addresses_up_to_case
              "0xB97EF9EF8734C71904D8002F8B6BC66DD9C48A6E" USDC USDT)
    as [_ [_ [_ [_ [Hsym Hdisj]]]]].
  split; [apply Hsym | apply Hdisj]; vm_compute; reflexivity.
Defined.

(** X8: [simulateDirection] reads [tokenIn] and [tokenOut] up to case
    only: replacing them by addresses that compare equal leaves the whole
    result unchanged, symbols included. *)
Theorem simulateDirection_ignores_case {N : Type} `{Arith N}
    (i : DirectionInput N) (tin tout : string) :
  same_address (tokenIn i) tin = true ->
  same_address (tokenOut i) tout = true ->
  simulateDirection (with_tokens tin tout i) = simulateDirection i.
Proof.
  intros Hin Hout.
  unfold simulateDirection, getSymbol.
  cbn [with_tokens startAmount poolA poolB swapFeeA swapFeeB bridgeCostA
       bridgeCostB directionLabel tokenIn tokenOut minAmountOutFactor].
  rewrite <- (proj2 (same_address_congruence _ _ (token0 (poolA i)) Hin)).
  rewrite <- (proj2 (same_address_congruence _ _ (token0 (poolB i)) Hout)).
  rewrite <- (proj1 (same_address_congruence _ _ USDC Hin)).
  rewrite <- (proj1 (same_address_congruence _ _ USDT Hin)).
  rewrite <- (proj1 (same_address_congruence _ _ USDC Hout)).
  rewrite <- (proj1 (same_address_congruence _ _ USDT Hout)).
  reflexivity.
Qed.

Lemma simulateDirection_ignores_case_witness :
  simulateDirection (with_tokens "0Xa" "0XA" test_scenario)
  = simulateDirection test_scenario.
Proof.
  apply (simulateDirection_ignores_case test_scenario "0Xa" "0XA");
    vm_compute; reflexivity.
Defined.

(** ** A cycle and its failures *)

Lemma appends_weaken {A : Type} (P Q : Event -> bool) (m : M A) :
  (forall ev, P ev = true -> Q ev = true) -> appends P m -> appends Q m.
Proof.
  intros HPQ Hm w. destruct (Hm w) as [evs [Hw Hevs]].
  exists evs. split; [exact Hw|].
  rewrite forallb_forall in *. auto.
Qed.

Lemma stage_event_no_cycle_error ev :
  stage_event ev = true -> no_cycle_error ev = true.
Proof. destruct ev; simpl; congruence. Qed.

Lemma simulateExecution_no_cycle_error cfg d pharaoh shadow :
  appends no_cycle_error (simulateExecution cfg d pharaoh shadow).
Proof.
  unfold simulateExecution.
  apply appends_bind; [now apply appends_emit|]. intros _.
  apply appends_weaken with stage_event.
  - apply stage_event_no_cycle_error.
  - apply runStages_appends_stage.
Qed.

Lemma cycle_errors_app (w1 w2 : Trace) :
  cycle_errors (w1 ++ w2) = cycle_errors w1 ++ cycle_errors w2.
Proof.
  induction w1 as [|ev w1 IH]; [reflexivity|].
  destruct ev; simpl; now rewrite IH.
Qed.

Lemma cycle_errors_none (evs : Trace) :
  forallb no_cycle_error evs = true -> cycle_errors evs = [].
Proof.
  induction evs as [|ev evs IH]; [reflexivity|].
  destruct ev; simpl; intros Hall; try discriminate; now apply IH.
Qed.

(** A [catch] whose handler only logs never fails, and logs the error of
    a failing body once, after everything the body recorded. *)
Lemma catch_all_logs (body : M unit) (w : Trace) :
  appends no_cycle_error body ->
  fst (catch body (fun err => emit (EvCycleError err)) w) = inr tt /\
  exists evs,
    snd (catch body (fun err => emit (EvCycleError err)) w) = w ++ evs /\
    (cycle_errors evs = [] \/
     exists e evs', evs = evs' ++ [EvCycleError e] /\ cycle_errors evs' = []).
Proof.
  intros Hbody. destruct (Hbody w) as [evs [Hw Hevs]].
  apply cycle_errors_none in Hevs.
  unfold catch. destruct (body w) as [[e | []] w1]; cbn [fst snd] in *; subst w1.
  - split; [reflexivity|]. exists (evs ++ [EvCycleError e]). split.
    + unfold emit. cbn [snd]. now rewrite app_assoc.
    + right. now exists e, evs.
  - split; [reflexivity|]. exists evs. split; [reflexivity | now left].
Qed.

Lemma cycle_body_no_cycle_error cfg pharaohReply shadowReply :
  appends no_cycle_error
    (pharaoh <- lift (getPharaohPrice pharaohReply) ;;
     shadow <- lift (getShadowPrice shadowReply) ;;
     let dir1 := simulateDirection (direction1 cfg pharaoh shadow) in
     let dir2 := simulateDirection (direction2 cfg pharaoh shadow) in
     logResult dir1 ;;;
     logResult dir2 ;;;
     if gt (r_profit dir1) (PROFIT_THRESHOLD cfg) then
       emit (EvProfitable DirUSDC (r_profit dir1)) ;;;
       simulateExecution cfg DirUSDC pharaoh shadow
     else if gt (r_profit dir2) (PROFIT_THRESHOLD cfg) then
       emit (EvProfitable DirUSDT (r_profit dir2)) ;;;
       simulateExecution cfg DirUSDT pharaoh shadow
     else
       emit EvNoOpportunity).
Proof.
  apply appends_bind; [apply appends_lift|]. intros pharaoh.
  apply appends_bind; [apply appends_lift|]. intros shadow.
  cbv zeta. unfold logResult.
  apply appends_bind; [now apply appends_emit|]. intros _.
  apply appends_bind; [now apply appends_emit|]. intros _.
  destruct (gt _ _).
  - apply appends_bind; [now apply appends_emit|]. intros _.
    apply simulateExecution_no_cycle_error.
  - destruct (gt _ _).
    + apply appends_bind; [now apply appends_emit|]. intros _.
      apply simulateExecution_no_cycle_error.
    + now apply appends_emit.
Qed.

(** X9: a cycle never throws.  Whatever the pool reads return and
    whatever the configuration, [simulateArbitrage] completes; it reports
    at most one error, and when it reports one that report is the last
    thing the cycle records. *)
Theorem cycle_never_throws cfg pharaohReply shadowReply (w : Trace) :
  fst (simulateArbitrage cfg pharaohReply shadowReply w) = inr tt /\
  exists evs,
    snd (simulateArbitrage cfg pharaohReply shadowReply w) = w ++ evs /\
    (cycle_errors evs = [] \/
     exists e evs', evs = evs' ++ [EvCycleError e] /\ cycle_errors evs' = []).
Proof.
  unfold simulateArbitrage.
  apply catch_all_logs, cycle_body_no_cycle_error.
Qed.

(** X10: when a pool quote cannot be obtained, because the read failed
    or because the price conversion threw, the cycle records that error
    and nothing else: no direction is simulated, none is executed. *)
Theorem failed_quote_aborts_cycle cfg pharaohReply shadowReply (w : Trace)
    (e : JsError) :
  getPharaohPrice pharaohReply = inl e \/
  ((exists pharaoh, getPharaohPrice pharaohReply = inr pharaoh) /\
   getShadowPrice shadowReply = inl e) ->
  simulateArbitrage cfg pharaohReply shadowReply w
  = (inr tt, w ++ [EvCycleError e]).
Proof.
  intros [Hp | [[pharaoh Hp] Hs]]; unfold simulateArbitrage, catch, bind, lift;
    rewrite Hp; [reflexivity|]. rewrite Hs. reflexivity.
Qed.

Lemma failed_quote_aborts_cycle_witness :
  simulateArbitrage default_config
    (inr {| reply_token0 := USDC; reply_token1 := USDT;
            reply_sqrtPriceX96 := 2 ^ 96;
            reply_decimals0 := 6; reply_decimals1 := 18 |})
    (inl (Error "rpc unreachable")) []
  = (inr tt, [] ++ [EvCycleError (RangeError "Exponent must be non-negative")]).
Proof.
  apply (failed_quote_aborts_cycle default_config).
  left. vm_compute. reflexivity.
Defined.

(** ** The pipeline in each mode *)

Lemma bn_zero : bn 0 6 = inr 0.
Proof. vm_compute. reflexivity. Qed.

(** X11: in live mode the pipeline never gets past its first swap.  If
    the start amount converts to fixed point, [realSwap] is attempted four
    times and the run fails with its "not implemented" error; no bridge
    and no second swap is ever attempted, and nothing is mocked.  If the
    start amount does not convert, the run fails with that error before
    any collaborator is attempted. *)
Theorem live_pipeline_stops_at_first_swap cfg d pharaoh shadow (w : Trace) :
  LIVE_MODE cfg = true ->
  simulateExecution cfg d pharaoh shadow w
  = match bn (START_USDC cfg) 6 with
    | inl e => (inl e, w ++ [EvExecute d])
    | inr _ =>
        (inl (Error "realSwap not implemented"),
         w ++ EvExecute d :: exhausted RealSwap "realSwap not implemented")
    end.
Proof.
  intros Hlive.
  unfold simulateExecution, runStages. rewrite Hlive. cbn [negb].
  unfold never, realSwap.
  destruct d;
    cbv beta iota delta [bind emit ret lift];
    (destruct (bn (START_USDC cfg) 6) as [e | a]; [reflexivity|]);
    rewrite bn_zero; cbv beta iota;
    rewrite notImplemented_run, <- app_assoc; reflexivity.
Qed.

Lemma live_pipeline_stops_at_first_swap_witness :
  simulateExecution (with_live_mode true default_config) DirUSDT
                    unit_quote unit_quote []
  = match bn (START_USDC (with_live_mode true default_config)) 6 with
    | inl e => (inl e, [] ++ [EvExecute DirUSDT])
    | inr _ =>
        (inl (Error "realSwap not implemented"),
         [] ++ EvExecute DirUSDT
            :: exhausted RealSwap "realSwap not implemented")
    end.
Proof.
  apply (live_pipeline_stops_at_first_swap
           (with_live_mode true default_config) DirUSDT unit_quote unit_quote []).
  reflexivity.
Defined.



(** X13: the pipeline never reads the configured bridge costs or the
    profit threshold.  Two configurations that agree on the swap fees,
    the start amount and the mode give the same run, event for event:
    the mock bridges always charge their built-in 0.1. *)
Theorem pipeline_ignores_bridge_costs cfg cfg' d pharaoh shadow (w : Trace) :
  PHARAOH (FEES cfg) = PHARAOH (FEES cfg') ->
  SHADOW (FEES cfg) = SHADOW (FEES cfg') ->
  START_USDC cfg = START_USDC cfg' ->
  LIVE_MODE cfg = LIVE_MODE cfg' ->
  simulateExecution cfg d pharaoh shadow w
  = simulateExecution cfg' d pharaoh shadow w.
Proof.
  intros Hp Hs Hstart Hmode.
  unfold simulateExecution, runStages.
  now rewrite Hp, Hs, Hstart, Hmode.
Qed.

Lemma pipeline_ignores_bridge_costs_witness :
  simulateExecution costly_config DirUSDC unit_quote unit_quote []
  = simulateExecution default_config DirUSDC unit_quote unit_quote [].
Proof.
  apply (pipeline_ignores_bridge_costs costly_config default_config DirUSDC
           unit_quote unit_quote []); reflexivity.
Defined.

(** ** The two directions of a cycle, in exact arithmetic *)

Lemma cycle_directions_are_the_configured_ones cfg pharaoh shadow :
  direction1 cfg pharaoh shadow
  = cycle_direction1 (START_USDC cfg) (PHARAOH (FEES cfg)) (SHADOW (FEES cfg))
                     (BRIDGE_USDT (FEES cfg)) (BRIDGE_USDC (FEES cfg))
                     pharaoh shadow /\
  direction2 cfg pharaoh shadow
  = cycle_direction2 (START_USDC cfg) (PHARAOH (FEES cfg)) (SHADOW (FEES cfg))
                     (BRIDGE_USDT (FEES cfg)) (BRIDGE_USDC (FEES cfg))
                     pharaoh shadow.
Proof. split; reflexivity. Qed.





(** ** The sign of a converted price *)

Section PositiveRounding.

Lemma shr_1_nonneg (mrs : shr_record) :
  0 <= shr_m mrs -> 0 <= shr_m (shr_1 mrs).
Proof.
  destruct mrs as [m r s]. cbn [shr_m].
  destruct m as [|p|p]; [| destruct p | ]; cbn; lia.
Qed.

Lemma iter_shr_1_nonneg (p : positive) :
  forall mrs, 0 <= shr_m mrs -> 0 <= shr_m (SpecFloat.iter_pos shr_1 p mrs).
Proof.
  induction p as [p IH | p IH |]; intros mrs Hm; cbn [SpecFloat.iter_pos].
  - apply IH, IH, shr_1_nonneg, Hm.
  - apply IH, IH, Hm.
  - apply shr_1_nonneg, Hm.
Qed.

Lemma shr_fexp_nonneg (m e : Z) (l : location) :
  0 <= m -> 0 <= shr_m (fst (shr_fexp prec emax m e l)).
Proof.
  intros Hm. unfold shr_fexp, shr.
  assert (Hrec : 0 <= shr_m (shr_record_of_loc m l))
    by (destruct l as [|[]]; exact Hm).
  destruct (fexp prec emax (Zdigits2 m + e) - e) as [|p|p]; cbn [fst];
    [exact Hrec | now apply iter_shr_1_nonneg | exact Hrec].
Qed.

Lemma round_nearest_even_nonneg (m : Z) (l : location) :
  0 <= m -> 0 <= round_nearest_even m l.
Proof.
  intros Hm. unfold round_nearest_even.
  destruct l as [|[]]; [| destruct (Z.even m) | |]; lia.
Qed.

Lemma binary_round_aux_nonneg (mx ex : Z) (lx : location) :
  0 <= mx -> SF_nonneg (binary_round_aux prec emax false mx ex lx) = true.
Proof.
  intros Hm. unfold binary_round_aux.
  pose proof (shr_fexp_nonneg mx ex lx Hm) as H1.
  destruct (shr_fexp prec emax mx ex lx) as [mrs' e']. cbn [fst] in H1.
  pose proof (shr_fexp_nonneg _ e' loc_Exact
                (round_nearest_even_nonneg _ (loc_of_shr_record mrs') H1)) as H2.
  destruct (shr_fexp prec emax _ e' loc_Exact) as [mrs'' e'']. cbn [fst] in H2.
  destruct (shr_m mrs'') as [|p|p]; [reflexivity | | lia].
  destruct (e'' <=? emax - prec); reflexivity.
Qed.

Lemma binary_round_nonneg (m : positive) (e : Z) :
  SF_nonneg (binary_round prec emax false m e) = true.
Proof.
  unfold binary_round. destruct (shl_align m e _) as [mz ez].
  apply binary_round_aux_nonneg. lia.
Qed.

Lemma binary_normalize_nonneg (z : Z) :
  0 <= z -> SF_nonneg (binary_normalize prec emax z 0 false) = true.
Proof.
  intros Hz. destruct z as [|p|p]; [reflexivity | | lia].
  apply binary_round_nonneg.
Qed.

Lemma Number_of_bigint_nonneg (z : Z) :
  0 <= z -> SF_nonneg (Prim2SF (JS.Number_of_bigint z)) = true.
Proof.
  intros Hz. unfold JS.Number_of_bigint.
  pose proof (binary_normalize_nonneg z Hz) as Hn.
  destruct (binary_normalize prec emax z 0 false) as [[]|[]| |[] m e];
    try discriminate; try reflexivity.
  cbn [SF2Prim]. rewrite Z_ldexp_spec, of_uint63_spec.
  pose proof (binary_normalize_nonneg
                (Uint63Axioms.to_Z (Uint63Axioms.of_Z (Z.pos m)))
                (proj1 (Uint63.to_Z_bounded _))) as Hm.
  destruct (binary_normalize prec emax _ 0 false) as [[]|[]| |[] m' e'];
    try discriminate; try reflexivity.
  cbn [SFldexp]. apply binary_round_nonneg.
Qed.

Lemma SFdiv_nonneg (x : spec_float) (m : positive) (e : Z) :
  SF_nonneg x = true ->
  SF_nonneg (SF64div x (S754_finite false m e)) = true.
Proof.
  destruct x as [[]|[]| |[] mx ex]; try discriminate; try reflexivity.
  intros _. unfold SF64div, SFdiv, SFdiv_core_binary.
  set (m' := match _ - _ - _ with Z.pos _ => _ | Z0 => _ | Z.neg _ => _ end).
  assert (Hm' : 0 <= m').
  { subst m'. destruct (_ - _ - _) as [|p|p]; [lia | | lia].
    apply Z.shiftl_nonneg. lia. }
  pose proof (Z.div_pos m' (Z.pos m) Hm' ltac:(lia)) as Hq.
  unfold Z.div in Hq.
  destruct (Z.div_eucl m' (Z.pos m)) as [q r].
  now apply binary_round_aux_nonneg.
Qed.

Lemma SF_nonneg_leb_zero (x : float) :
  SF_nonneg (Prim2SF x) = true ->
  is_nan x = false /\ (0 <=? x)%float = true.
Proof.
  intros Hx. unfold is_nan. rewrite leb_spec, eqb_spec.
  change (Prim2SF 0) with (S754_zero false).
  destruct (Prim2SF x) as [[]|[]| |[] m e]; try discriminate;
    try (split; reflexivity).
  rewrite SFeqb_finite_refl. split; reflexivity.
Qed.

End PositiveRounding.

(** X15: the converted price is never negative and never NaN.  For
    every sqrt price (of either sign) and every pair of
    decimal counts with [decimalsToken1 <= decimalsToken0] the converter
    returns a number [p] with [p >= 0]; [p] may be [+Infinity]. *)
Theorem getPrice_is_nonnegative (sqrtPriceX96 d0 d1 : Z) :
  d1 <= d0 ->
  exists p : JS.number,
    getPriceFromSqrtPriceX96BigInt sqrtPriceX96 d0 d1 = inr p /\
    is_nan p = false /\ (0 <=? p)%float = true.
Proof.
  intros Hd. eexists. split; [now apply getPrice_nonnegative_exponent|].
  apply SF_nonneg_leb_zero. rewrite div_spec.
  change (Prim2SF (JS.Number_of_bigint (2 ^ 192)))
    with (S754_finite false 4503599627370496 140).
  apply SFdiv_nonneg, Number_of_bigint_nonneg.
  apply Z.mul_nonneg_nonneg; [apply Z.pow_even_nonneg; now exists 1 | ].
  apply Z.pow_nonneg. lia.
Qed.

Lemma getPrice_is_nonnegative_witness :
  exists p : JS.number,
    getPriceFromSqrtPriceX96BigInt (- (2 ^ 200)) 18 6 = inr p /\
    is_nan p = false /\ (0 <=? p)%float = true.
Proof. apply (getPrice_is_nonnegative (- (2 ^ 200)) 18 6). lia. Defined.

Example getPrice_can_overflow :
  getPriceFromSqrtPriceX96BigInt (2 ^ 600) 6 6 = inr infinity /\
  getPriceFromSqrtPriceX96BigInt 0 6 6 = inr 0%float.
Proof. split; vm_compute; reflexivity. Qed.

(** ** The polling loop *)

Lemma cycle_executes_at_most_once cfg pharaohReply shadowReply (w : Trace) :
  exists evs,
    snd (simulateArbitrage cfg pharaohReply shadowReply w) = w ++ evs /\
    (List.length (executions evs) <= 1)%nat.
Proof.
  unfold simulateArbitrage.
  destruct (getPharaohPrice pharaohReply) as [e | pharaoh].
  { exists [EvCycleError e]. split; [reflexivity | cbn; lia]. }
  destruct (getShadowPrice shadowReply) as [e | shadow].
  { exists [EvCycleError e]. split; [reflexivity | cbn; lia]. }
  unfold catch, logResult.
  unfold bind at 1 2 3 4. unfold lift, emit at 1 2. cbv beta zeta.
  set (dir1 := simulateDirection (direction1 cfg pharaoh shadow)).
  set (dir2 := simulateDirection (direction2 cfg pharaoh shadow)).
  set (w0 := (w ++ [_]) ++ [_]).
  destruct (gt (r_profit dir1) (PROFIT_THRESHOLD cfg)).
  - destruct (execute_branch cfg DirUSDC (r_profit dir1) pharaoh shadow w0)
      as [evs [Hw [Hex _]]].
    unfold catch in Hw. eexists. rewrite Hw. subst w0.
    rewrite <- !app_assoc. split; [reflexivity|].
    cbn [app executions]. rewrite Hex. cbn. lia.
  - destruct (gt (r_profit dir2) (PROFIT_THRESHOLD cfg)).
    + destruct (execute_branch cfg DirUSDT (r_profit dir2) pharaoh shadow w0)
        as [evs [Hw [Hex _]]].
      unfold catch in Hw. eexists. rewrite Hw. subst w0.
      rewrite <- !app_assoc. split; [reflexivity|].
      cbn [app executions]. rewrite Hex. cbn. lia.
    + eexists. unfold emit. cbn [snd]. subst w0.
      rewrite <- !app_assoc. split; [reflexivity | cbn; lia].
Qed.

Lemma cycle_summary cfg pharaohReply shadowReply (w : Trace) :
  fst (simulateArbitrage cfg pharaohReply shadowReply w) = inr tt /\
  exists evs,
    snd (simulateArbitrage cfg pharaohReply shadowReply w) = w ++ evs /\
    (List.length (executions evs) <= 1)%nat /\
    (List.length (cycle_errors evs) <= 1)%nat.
Proof.
  assert (Hcatch :
    fst (simulateArbitrage cfg pharaohReply shadowReply w) = inr tt /\
    exists evs,
      snd (simulateArbitrage cfg pharaohReply shadowReply w) = w ++ evs /\
      (cycle_errors evs = [] \/
       exists e evs', evs = evs' ++ [EvCycleError e] /\ cycle_errors evs' = []))
    by apply catch_all_logs, cycle_body_no_cycle_error.
  destruct Hcatch as [Hfst [evs [Hw Herr]]].
  split; [exact Hfst|].
  destruct (cycle_executes_at_most_once cfg pharaohReply shadowReply w)
    as [evs' [Hw' Hex]].
  rewrite Hw in Hw'. apply app_inv_head in Hw'. subst evs'.
  exists evs. repeat split; [exact Hw | exact Hex |].
  destruct Herr as [-> | [e [evs' [-> Hnone]]]]; [cbn; lia|].
  rewrite cycle_errors_app, Hnone. cbn. lia.
Qed.

(** X16: one bad cycle does not stop the polling.  Whatever the pools
    answer in each of the first n cycles (failed reads, unusable
    prices, pipelines that throw), the loop gets through all n cycles
    without raising; over those cycles it executes at most n pipelines
    and reports at most n errors. *)
Theorem polling_survives_failures cfg replies (w : Trace) :
  fst (main cfg replies w) = inr tt /\
  exists evs,
    snd (main cfg replies w) = w ++ evs /\
    (List.length (executions evs) <= List.length replies)%nat /\
    (List.length (cycle_errors evs) <= List.length replies)%nat.
Proof.
  revert w. induction replies as [| [pharaohReply shadowReply] rest IH]; intros w.
  - split; [reflexivity|]. exists []. cbn. rewrite app_nil_r. repeat split; lia.
  - cbn [main]. unfold bind, sleep, emit.
    destruct (cycle_summary cfg pharaohReply shadowReply w)
      as [Hfst [evs1 [Hw1 [Hex1 Herr1]]]].
    destruct (simulateArbitrage cfg pharaohReply shadowReply w) as [[e | []] w1];
      cbn [fst snd] in Hfst, Hw1; [discriminate|]. subst w1.
    destruct (IH ((w ++ evs1) ++ [EvSleep 10000])) as [Hfst2 [evs2 [Hw2 [Hex2 Herr2]]]].
    split; [exact Hfst2|].
    exists (evs1 ++ [EvSleep 10000] ++ evs2). rewrite Hw2.
    split; [now rewrite <- !app_assoc|].
    rewrite !executions_app, !cycle_errors_app, !length_app. cbn [executions cycle_errors List.length].
    split; lia.
Qed.

(** Three cycles: an unreachable pool, a quote of price 0 and a market
    at par; the loop reports the first, has the second's execution fail
    inside the cycle, completes the third (whose mock bridges pause 7 s
    and 5 s), and pauses 10 s after each. *)
Example polling_three_cycles :
  let run := main lenient_config
               [(inl (Error "rpc down"), inr (reply USDC USDT (2 ^ 96)));
                (inr (reply USDC USDT 0), inr (reply USDC USDT (2 ^ 96)));
                (inr (reply USDC USDT (2 ^ 96)), inr (reply USDC USDT (2 ^ 96)))]
               [] in
  fst run = inr tt /\
  sleeps (snd run) = [10000; 10000; 7000; 5000; 10000] /\
  cycle_errors (snd run) = [Error "rpc down"; RangeError "Division by zero"] /\
  executions (snd run) = [DirUSDT; DirUSDC].
Proof. vm_compute. repeat split. Qed.
